(** * String Analyzer API: property computer, filter engine, phrase interpreter

    A shallow embedding of [main.py] (FastAPI service) and the verification of
    its query interpretation and filtering behaviour.

    Modelling conventions.
    - A Python [str] is a sequence of Unicode code points: [str := list N].
      Literals of the source are written [py "..."].
    - A Python [int] is a [Z]; [bool] is [bool]; [None] is [None] of [option].
    - The parts of the Python runtime the source calls but does not define
      (SHA-256, and the Unicode tables for code points above U+00FF) are the
      fields of the class [Runtime]; on Latin-1 text everything computes.
    - An exception is a value of [exn]; a function that may raise returns a
      [result].
    - [string_store] (a dict, enumerated in insertion order) is an association
      list threaded explicitly through the handlers.
    - [dict(Counter(value))] is a finite map [gmap N Z]. *)

From Stdlib Require Import ZArith NArith Lia.
From stdpp Require Import base list gmap strings.

Set Default Proof Using "Type".

(** ** Python strings *)

Definition str := list N.

(** The code points of a source literal (the literals are ASCII). *)
Definition py (s : string) : str :=
  map (fun a => Ascii.N_of_ascii a) (String.list_ascii_of_string s).

(** [a + b] on strings is [++]; [len(s)] as a Python int. *)
Definition len {A} (l : list A) : Z := Z.of_nat (length l).

(** [s.startswith(p)], and the rest of [s] after the prefix [p]. *)
Fixpoint strip_prefix (p s : str) : option str :=
  match p, s with
  | [], _ => Some s
  | _ :: _, [] => None
  | a :: p', b :: s' => if N.eqb a b then strip_prefix p' s' else None
  end.

(** [sub in s]: substring test, scanning the start positions left to right. *)
Fixpoint str_in (sub s : str) : bool :=
  match strip_prefix sub s with
  | Some _ => true
  | None => match s with
            | [] => false
            | _ :: s' => str_in sub s'
            end
  end.

(** ** The runtime the source relies on *)

(** ASCII characters that [str.lower()] leaves alone: everything below
    U+0080 except A-Z. *)
Definition lower_fixed (c : N) : bool :=
  ((c <? 128) && negb ((65 <=? c) && (c <=? 90)))%N.

Class Runtime := {
  (** [hashlib.sha256(value.encode()).hexdigest()] *)
  sha256_hexdigest : str -> str;
  (** [str.lower()] on a string holding a code point above U+00FF *)
  unicode_lower : str -> str;
  (** decimal value of a code point above U+00FF of category Nd, if it is one
      (what [\d] matches and [int()] reads) *)
  unicode_decimal : N -> option Z;
  (** [str.isspace()] for a code point above U+00FF *)
  unicode_isspace : N -> bool;
  (** [str.lower()] maps character by character, so a stretch of text it
      leaves alone is still there, in one piece, in the result. *)
  unicode_lower_fixed : forall pre t post : str,
    forallb lower_fixed t = true ->
    exists pre' post', unicode_lower (pre ++ t ++ post) = pre' ++ t ++ post'
}.

Definition is_latin1 (c : N) : bool := (c <? 256)%N.

(** Lower-casing inside Latin-1: A-Z, and U+00C0..U+00DE except the
    multiplication sign U+00D7, move up by 32. *)
Definition lower_latin1 (c : N) : N :=
  if ((65 <=? c) && (c <=? 90) ||
      (192 <=? c) && (c <=? 222) && negb (c =? 215))%N
  then (c + 32)%N else c.

Definition is_ascii_digit (c : N) : bool := ((48 <=? c) && (c <=? 57))%N.

(** [[a-z]] of the [re] module (no IGNORECASE flag): ASCII only. *)
Definition is_az (c : N) : bool := ((97 <=? c) && (c <=? 122))%N.

(** The quote class of the containment pattern: apostrophe (39) or double
    quote (34). *)
Definition is_quote (c : N) : bool := ((c =? 39) || (c =? 34))%N.

Definition isspace_latin1 (c : N) : bool :=
  ((9 <=? c) && (c <=? 13) || (28 <=? c) && (c <=? 32) ||
   (c =? 133) || (c =? 160))%N.

(** ** Exceptions and results *)

Inductive exn :=
| ValueError (msg : str)
| HTTPException (status_code : Z) (detail : str).

Inductive result (A : Type) :=
| Return (a : A)
| Raise (e : exn).
Arguments Return {A} a.
Arguments Raise {A} e.

(** Statements run in sequence; the first exception raised ends the run. *)
#[global] Instance result_ret : MRet result := fun _ a => Return a.
#[global] Instance result_bind : MBind result := fun _ _ f m =>
  match m with
  | Return a => f a
  | Raise e => Raise e
  end.

Definition HTTP_400_BAD_REQUEST : Z := 400.
Definition HTTP_409_CONFLICT : Z := 409.
Definition HTTP_422_UNPROCESSABLE_ENTITY : Z := 422.

(** ** Data model *)

Module StringProperties.
Record t := mk {
  length : Z;
  is_palindrome : bool;
  unique_characters : Z;
  word_count : Z;
  sha256_hash : str;
  character_frequency_map : gmap N Z
}.
End StringProperties.

(** The dict stored per string: keys "id", "value", "properties",
    "created_at". *)
Module StringData.
Record t := mk {
  id : str;
  value : str;
  properties : StringProperties.t;
  created_at : str
}.
End StringData.

(** The [filters] dict: each of its five possible keys is absent ([None]) or
    bound to a value. *)
Module Filters.
Record t := mk {
  is_palindrome : option bool;
  min_length : option Z;
  max_length : option Z;
  word_count : option Z;
  contains_character : option str
}.

(** [{}] *)
Definition empty : t := mk None None None None None.

(** [filters[key] = v] for each key *)
Definition set_is_palindrome (v : bool) (f : t) : t :=
  mk (Some v) (min_length f) (max_length f) (word_count f)
     (contains_character f).
Definition set_min_length (v : Z) (f : t) : t :=
  mk (is_palindrome f) (Some v) (max_length f) (word_count f)
     (contains_character f).
Definition set_max_length (v : Z) (f : t) : t :=
  mk (is_palindrome f) (min_length f) (Some v) (word_count f)
     (contains_character f).
Definition set_word_count (v : Z) (f : t) : t :=
  mk (is_palindrome f) (min_length f) (max_length f) (Some v)
     (contains_character f).
Definition set_contains_character (v : str) (f : t) : t :=
  mk (is_palindrome f) (min_length f) (max_length f) (word_count f)
     (Some v).

(** [not filters]: the dict has no key *)
Definition is_empty (f : t) : bool :=
  match is_palindrome f, min_length f, max_length f, word_count f,
        contains_character f with
  | None, None, None, None, None => true
  | _, _, _, _, _ => false
  end.
End Filters.

Module FilteredResponse.
Record t := mk {
  data : list StringData.t;
  count : Z;
  filters_applied : Filters.t
}.
End FilteredResponse.

(** The dict under "interpreted_query". *)
Module InterpretedQuery.
Record t := mk {
  original : str;
  parsed_filters : Filters.t
}.
End InterpretedQuery.

Module NaturalLanguageResponse.
Record t := mk {
  data : list StringData.t;
  count : Z;
  interpreted_query : InterpretedQuery.t
}.
End NaturalLanguageResponse.

(** ** [string_store]: a dict enumerated in insertion order *)

Section OrderedDict.
Context {V : Type}.

Definition dict := list (str * V).

(** [d.get(k)] *)
Fixpoint dict_get (k : str) (d : dict) : option V :=
  match d with
  | [] => None
  | (k', v) :: d' => if decide (k = k') then Some v else dict_get k d'
  end.

(** [k in d] *)
Definition dict_contains (k : str) (d : dict) : bool :=
  match dict_get k d with Some _ => true | None => false end.

(** [d[k] = v]: a bound key keeps its place, a new key goes last *)
Fixpoint dict_setitem (k : str) (v : V) (d : dict) : dict :=
  match d with
  | [] => [(k, v)]
  | (k', v') :: d' =>
      if decide (k = k') then (k, v) :: d'
      else (k', v') :: dict_setitem k v d'
  end.

(** [list(d.values())] *)
Definition dict_values (d : dict) : list V := map snd d.
End OrderedDict.
Arguments dict V : clear implicits.

(** ** A backtracking matcher for the patterns handed to [re.search]

    The constructors cover what the six patterns of the source use.
    Alternatives are tried in order, [?] and [+] are greedy, and a failure
    later in the pattern backtracks into the latest choice, as in [re]. *)

Inductive regex :=
| Lit (s : str)                 (* literal text *)
| Class (p : N -> bool)         (* one character of a class *)
| Seq (r1 r2 : regex)           (* r1 r2 *)
| Alt (r1 r2 : regex)           (* r1|r2 *)
| Opt (r : regex)               (* r? *)
| Plus (p : N -> bool)          (* class+ *)
| Group (r : regex).            (* (r), the capturing group 1 *)

Declare Scope regex_scope.
Delimit Scope regex_scope with re.
Bind Scope regex_scope with regex.
Infix "&>" := Seq (at level 62, right associativity) : regex_scope.

Section Matcher.
Context {A : Type}.

(** The state after a partial match: the input left, and group 1 if set. *)
Definition cont := str -> option str -> option A.

(** [class+] with continuation [k]: take as many characters as possible,
    give back one at a time while [k] fails. *)
Fixpoint match_plus (p : N -> bool) (cap : option str) (k : cont)
    (inp : str) : option A :=
  match inp with
  | [] => None
  | c :: rest =>
      if p c then
        match match_plus p cap k rest with
        | Some x => Some x
        | None => k rest cap
        end
      else None
  end.

Fixpoint rmatch (r : regex) (inp : str) (cap : option str) (k : cont)
    : option A :=
  match r with
  | Lit s =>
      match strip_prefix s inp with
      | Some rest => k rest cap
      | None => None
      end
  | Class p =>
      match inp with
      | c :: rest => if p c then k rest cap else None
      | [] => None
      end
  | Seq r1 r2 =>
      rmatch r1 inp cap (fun inp' cap' => rmatch r2 inp' cap' k)
  | Alt r1 r2 =>
      match rmatch r1 inp cap k with
      | Some x => Some x
      | None => rmatch r2 inp cap k
      end
  | Opt r1 =>
      match rmatch r1 inp cap k with
      | Some x => Some x
      | None => k inp cap
      end
  | Plus p => match_plus p cap k inp
  | Group r1 =>
      rmatch r1 inp cap
        (fun inp' _ => k inp' (Some (take (length inp - length inp') inp)))
  end.
End Matcher.

(** A match object, reduced to what the source reads from it: [group(1)].
    In each pattern of the source group 1 takes part in every match. *)
Record Match := mkMatch { group1 : str }.

(** The pattern matched at the very start of [inp]. *)
Definition match_here (r : regex) (inp : str) : option Match :=
  rmatch r inp None (fun _ cap => Some (mkMatch (default [] cap))).

(** [re.search(r, s)]: the match at the leftmost start position that has
    one, the end of the string included. *)
Fixpoint re_search (r : regex) (s : str) : option Match :=
  match match_here r s with
  | Some m => Some m
  | None => match s with
            | [] => None
            | _ :: s' => re_search r s'
            end
  end.

(** ** The program *)

Section Program.
Context `{rt : Runtime}.

(** [value.lower()] *)
Definition str_lower (s : str) : str :=
  if forallb is_latin1 s then map lower_latin1 s else unicode_lower s.

(** The decimal value of a character [\d] matches. *)
Definition decimal_value (c : N) : option Z :=
  if is_latin1 c
  then (if is_ascii_digit c then Some (Z.of_N c - 48)%Z else None)
  else unicode_decimal c.

(** [\d] on a [str] pattern: any Unicode decimal digit. *)
Definition is_digit (c : N) : bool :=
  match decimal_value c with Some _ => true | None => false end.

(** [int(s)] for a run of decimal digits (the interpreter's optional cap
    on the number of digits is not modelled). *)
Definition int (s : str) : Z :=
  foldl (fun acc c => (10 * acc + default 0 (decimal_value c))%Z) 0%Z s.

Definition isspace (c : N) : bool :=
  if is_latin1 c then isspace_latin1 c else unicode_isspace c.

(** [value.split()]: the maximal runs of non-space characters; [cur] is
    the run being read, latest character first. *)
Fixpoint split_from (cur : str) (s : str) : list str :=
  match s with
  | [] => match cur with [] => [] | _ :: _ => [rev cur] end
  | c :: s' =>
      if isspace c
      then match cur with
           | [] => split_from [] s'
           | _ :: _ => rev cur :: split_from [] s'
           end
      else split_from (c :: cur) s'
  end.

Definition split (s : str) : list str := split_from [] s.

(** [Counter(value)]: one pass over the characters, each doing
    [d[c] = d.get(c, 0) + 1]. *)
Definition count_step (d : gmap N Z) (c : N) : gmap N Z :=
  <[c := (default 0 (d !! c) + 1)%Z]> d.

Definition Counter (value : str) : gmap N Z := foldl count_step ∅ value.

(** [set(value)] *)
Definition set_of (value : str) : gset N := list_to_set value.

(** *** [analyze_string] *)
Definition analyze_string (value : str) : StringProperties.t :=
  let sha256_hash := sha256_hexdigest value in
  let normalized := str_lower value in
  let is_palindrome := bool_decide (normalized = rev normalized) in
  let unique_characters := Z.of_nat (size (set_of value)) in
  let word_count := len (split value) in
  let character_frequency_map := Counter value in
  StringProperties.mk (len value) is_palindrome unique_characters
    word_count sha256_hash character_frequency_map.

(** *** [apply_filters] *)
Definition apply_filters (strings : list StringData.t)
    (filters : Filters.t) : list StringData.t :=
  let filtered := strings in
  let filtered :=
    match Filters.is_palindrome filters with
    | Some v =>
        List.filter
          (fun s => Bool.eqb (StringProperties.is_palindrome
                                (StringData.properties s)) v)
          filtered
    | None => filtered
    end in
  let filtered :=
    match Filters.min_length filters with
    | Some n =>
        List.filter
          (fun s => (n <=? StringProperties.length
                             (StringData.properties s))%Z)
          filtered
    | None => filtered
    end in
  let filtered :=
    match Filters.max_length filters with
    | Some n =>
        List.filter
          (fun s => (StringProperties.length
                       (StringData.properties s) <=? n)%Z)
          filtered
    | None => filtered
    end in
  let filtered :=
    match Filters.word_count filters with
    | Some n =>
        List.filter
          (fun s => (StringProperties.word_count
                       (StringData.properties s) =? n)%Z)
          filtered
    | None => filtered
    end in
  (* [if filters.get("contains_character"):] is a truth test: an empty
     string is skipped like an absent key. *)
  let filtered :=
    match Filters.contains_character filters with
    | Some ((_ :: _) as char) =>
        List.filter (fun s => str_in char (StringData.value s)) filtered
    | Some [] | None => filtered
    end in
  filtered.

(** *** The patterns of [parse_natural_language_query] *)

(** [longer than (\d+)] *)
Definition longer_re : regex :=
  (Lit (py "longer than ") &> Group (Plus is_digit))%re.
(** [shorter than (\d+)] *)
Definition shorter_re : regex :=
  (Lit (py "shorter than ") &> Group (Plus is_digit))%re.
(** [at least (\d+) characters?] *)
Definition at_least_re : regex :=
  (Lit (py "at least ") &> Group (Plus is_digit) &>
   Lit (py " character") &> Opt (Lit (py "s")))%re.
(** [at most (\d+) characters?] *)
Definition at_most_re : regex :=
  (Lit (py "at most ") &> Group (Plus is_digit) &>
   Lit (py " character") &> Opt (Lit (py "s")))%re.
(** [exactly (\d+) characters?] *)
Definition exactly_re : regex :=
  (Lit (py "exactly ") &> Group (Plus is_digit) &>
   Lit (py " character") &> Opt (Lit (py "s")))%re.
(** [contain(?:s|ing)? (?:the )?(?:letter |character )?Q?([a-z])Q?],
    [Q] the quote class *)
Definition contains_re : regex :=
  (Lit (py "contain") &> Opt (Alt (Lit (py "s")) (Lit (py "ing"))) &>
   Lit (py " ") &> Opt (Lit (py "the ")) &>
   Opt (Alt (Lit (py "letter ")) (Lit (py "character "))) &>
   Opt (Class is_quote) &> Group (Class is_az) &> Opt (Class is_quote))%re.

(** *** [parse_natural_language_query]

    The body up to the validation: the [filters] dict the rules build
    from the lower-cased query. *)
Definition build_filters (query_lower : str) : Filters.t :=
  let filters := Filters.empty in
  (* Palindrome detection *)
  let filters :=
    if str_in (py "palindrom") query_lower
    then Filters.set_is_palindrome true filters else filters in
  (* Word count detection *)
  let filters :=
    if str_in (py "single word") query_lower
       || str_in (py "one word") query_lower
    then Filters.set_word_count 1 filters
    else if str_in (py "two word") query_lower
    then Filters.set_word_count 2 filters
    else if str_in (py "three word") query_lower
    then Filters.set_word_count 3 filters
    else filters in
  (* Length filters *)
  let filters :=
    match re_search longer_re query_lower with
    | Some longer_match =>
        Filters.set_min_length (int (group1 longer_match) + 1) filters
    | None => filters
    end in
  let filters :=
    match re_search shorter_re query_lower with
    | Some shorter_match =>
        Filters.set_max_length (int (group1 shorter_match) - 1) filters
    | None => filters
    end in
  let filters :=
    match re_search at_least_re query_lower with
    | Some at_least_match =>
        Filters.set_min_length (int (group1 at_least_match)) filters
    | None => filters
    end in
  let filters :=
    match re_search at_most_re query_lower with
    | Some at_most_match =>
        Filters.set_max_length (int (group1 at_most_match)) filters
    | None => filters
    end in
  let filters :=
    match re_search exactly_re query_lower with
    | Some exactly_match =>
        let length := int (group1 exactly_match) in
        Filters.set_max_length length
          (Filters.set_min_length length filters)
    | None => filters
    end in
  (* Character containment *)
  let filters :=
    match re_search contains_re query_lower with
    | Some contains_match =>
        Filters.set_contains_character (group1 contains_match) filters
    | None => filters
    end in
  (* Special case for "first vowel" *)
  let filters :=
    if str_in (py "first vowel") query_lower
    then Filters.set_contains_character (py "a") filters else filters in
  filters.

Definition conflicting_msg : str :=
  py "Conflicting filters: min_length cannot be greater than max_length".
Definition unable_msg : str := py "Unable to parse natural language query".

Definition parse_natural_language_query (query : str)
    : result Filters.t :=
  let query_lower := str_lower query in
  let filters := build_filters query_lower in
  (* Validate for conflicting filters *)
  match Filters.min_length filters, Filters.max_length filters with
  | Some mn, Some mx =>
      if (mn >? mx)%Z then Raise (ValueError conflicting_msg)
      else Return ()
  | _, _ => Return ()
  end ;;
  (if Filters.is_empty filters then Raise (ValueError unable_msg)
   else Return ()) ;;
  Return filters.

(** *** The handlers *)

Definition store := dict StringData.t.

(** [POST /strings]; [utcnow] is [datetime.utcnow().isoformat()].
    Returns the store after the call and the response. *)
Definition create_string (utcnow : str) (value : str)
    (string_store : store) : store * result StringData.t :=
  let properties := analyze_string value in
  let string_id := StringProperties.sha256_hash properties in
  if dict_contains string_id string_store then
    (string_store,
     Raise (HTTPException HTTP_409_CONFLICT
              (py "String already exists in the system")))
  else
    let created_at := utcnow ++ py "Z" in
    let string_data :=
      StringData.mk string_id value properties created_at in
    let string_store := dict_setitem string_id string_data string_store in
    (string_store, Return string_data).

(** [GET /strings]; the arguments are the query parameters as the handler
    body receives them. *)
Definition list_strings_with_filters (string_store : store)
    (is_palindrome : option bool) (min_length max_length : option Z)
    (word_count : option Z) (contains_character : option str)
    : result FilteredResponse.t :=
  (* Validate filter combinations *)
  match min_length, max_length with
  | Some mn, Some mx =>
      if (mn >? mx)%Z
      then Raise (HTTPException HTTP_400_BAD_REQUEST
                    (py "min_length cannot be greater than max_length"))
      else Return ()
  | _, _ => Return ()
  end ;;
  (* Build filters dict *)
  let filters :=
    Filters.mk is_palindrome min_length max_length word_count
      contains_character in
  (* Get all strings and apply filters *)
  let all_strings := dict_values string_store in
  let filtered_strings := apply_filters all_strings filters in
  Return (FilteredResponse.mk filtered_strings (len filtered_strings)
            filters).

(** [GET /strings/filter-by-natural-language] *)
Definition filter_by_natural_language (string_store : store)
    (query : str) : result NaturalLanguageResponse.t :=
  match parse_natural_language_query query with
  | Raise (ValueError e) =>
      if str_in (py "conflicting") (str_lower e)
      then Raise (HTTPException HTTP_422_UNPROCESSABLE_ENTITY e)
      else Raise (HTTPException HTTP_400_BAD_REQUEST
                    (py "Unable to parse natural language query: " ++ e))
  | Raise e => Raise e
  | Return filters =>
      let all_strings := dict_values string_store in
      let filtered_strings := apply_filters all_strings filters in
      Return (NaturalLanguageResponse.mk filtered_strings
                (len filtered_strings) (InterpretedQuery.mk query filters))
  end.
End Program.

(** A runtime to run the model on Latin-1 text: no code point above U+00FF
    is a digit, a space or cased, and the digest is replaced by the text
    itself. *)
Definition latin1_runtime : Runtime :=
  {| sha256_hexdigest := fun s => s;
     unicode_lower := fun s => s;
     unicode_decimal := fun _ => None;
     unicode_isspace := fun _ => false;
     unicode_lower_fixed := fun pre _ post _ =>
       ex_intro _ pre (ex_intro _ post eq_refl) |}.

(** ** Vocabulary of the specification *)

(** [sum(d.values())] *)
Definition sum_values (d : gmap N Z) : Z :=
  map_fold (fun _ v acc => (v + acc)%Z) 0%Z d.

(** [s.count(c)] *)
Definition occurrences (c : N) (s : str) : Z :=
  len (List.filter (N.eqb c) s).

(** Every present predicate of the filter specification holds of the record
    (section 4.2 of the specification); an absent one asks nothing. *)
Definition holds_all (filters : Filters.t) (s : StringData.t) : Prop :=
  (forall v, Filters.is_palindrome filters = Some v ->
     StringProperties.is_palindrome (StringData.properties s) = v) /\
  (forall n, Filters.min_length filters = Some n ->
     (StringProperties.length (StringData.properties s) >= n)%Z) /\
  (forall n, Filters.max_length filters = Some n ->
     (StringProperties.length (StringData.properties s) <= n)%Z) /\
  (forall n, Filters.word_count filters = Some n ->
     StringProperties.word_count (StringData.properties s) = n) /\
  (forall c, Filters.contains_character filters = Some c ->
     exists pre post, StringData.value s = pre ++ c ++ post).

(** The same as a test. *)
Definition passes (filters : Filters.t) (s : StringData.t) : bool :=
  from_option
    (fun v => Bool.eqb (StringProperties.is_palindrome
                          (StringData.properties s)) v)
    true (Filters.is_palindrome filters)
  && from_option
       (fun n => (n <=? StringProperties.length (StringData.properties s))%Z)
       true (Filters.min_length filters)
  && from_option
       (fun n => (StringProperties.length (StringData.properties s) <=? n)%Z)
       true (Filters.max_length filters)
  && from_option
       (fun n => (StringProperties.word_count
                    (StringData.properties s) =? n)%Z)
       true (Filters.word_count filters)
  && from_option (fun c => str_in c (StringData.value s)) true
       (Filters.contains_character filters).

(** The 409 error of [create_string]. *)
Definition duplicate_error : exn :=
  HTTPException HTTP_409_CONFLICT (py "String already exists in the system").

(** Does the text start with a character of the class? *)
Definition starts_with_class (p : N -> bool) (s : str) : bool :=
  match s with
  | c :: _ => p c
  | [] => false
  end.

(** What may stand between "contain" and the space in the containment
    pattern: nothing, "s" or "ing". *)
Definition contain_suffixes : list str := [[]; py "s"; py "ing"].

Section InterpreterVocabulary.
Context `{rt : Runtime}.

(** No rule of the interpreter applies to the lower-cased query. *)
Definition no_rule_matches (q : str) : Prop :=
  str_in (py "palindrom") q = false /\
  str_in (py "single word") q = false /\
  str_in (py "one word") q = false /\
  str_in (py "two word") q = false /\
  str_in (py "three word") q = false /\
  re_search longer_re q = None /\
  re_search shorter_re q = None /\
  re_search at_least_re q = None /\
  re_search at_most_re q = None /\
  re_search exactly_re q = None /\
  re_search contains_re q = None /\
  str_in (py "first vowel") q = false.

(** Both length bounds are set, the lower above the upper. *)
Definition bounds_conflict (filters : Filters.t) : Prop :=
  exists mn mx, Filters.min_length filters = Some mn /\
                Filters.max_length filters = Some mx /\ (mn > mx)%Z.
End InterpreterVocabulary.

(** ** The other handlers *)

Definition HTTP_404_NOT_FOUND : Z := 404.

(** The 404 error of [get_string] and [delete_string]. *)
Definition not_found_error : exn :=
  HTTPException HTTP_404_NOT_FOUND (py "String not found in the system").

Section OrderedDictDelete.
Context {V : Type}.

(** [del d[k]] for a key of [d]: the binding goes, the others keep their
    order. (On a key that is not in [d] Python raises KeyError; the one
    call of the source is guarded by [k in d], and the model leaves [d]
    as it is there.) *)
Fixpoint dict_delitem (k : str) (d : dict V) : dict V :=
  match d with
  | [] => []
  | (k', v) :: d' =>
      if decide (k = k') then d' else (k', v) :: dict_delitem k d'
  end.

(** [list(d.keys())] *)
Definition dict_keys (d : dict V) : list str := map fst d.
End OrderedDictDelete.

Section OtherHandlers.
Context `{rt : Runtime}.

(** [GET /strings/{string_value}]. The membership test and the subscript
    [string_store[string_id]] are one lookup. *)
Definition get_string (string_value : str) (string_store : store)
    : result StringData.t :=
  let string_id := sha256_hexdigest string_value in
  match dict_get string_id string_store with
  | None => Raise not_found_error
  | Some string_data => Return string_data
  end.

(** [DELETE /strings/{string_value}]: the store after the call and the
    response ([None], status 204). *)
Definition delete_string (string_value : str) (string_store : store)
    : store * result () :=
  let string_id := sha256_hexdigest string_value in
  if negb (dict_contains string_id string_store) then
    (string_store, Raise not_found_error)
  else
    (dict_delitem string_id string_store, Return ()).

(** [GET /health]: the "status" and "stored_strings" entries. *)
Definition health_check (string_store : store) : str * Z :=
  (py "healthy", len string_store).

(** A request that reaches the store, and the store after serving it. *)
Inductive request :=
| POST_strings (utcnow value : str)
| GET_string (string_value : str)
| DELETE_string (string_value : str).

Definition serve (string_store : store) (r : request) : store :=
  match r with
  | POST_strings utcnow value =>
      fst (create_string utcnow value string_store)
  | GET_string _ => string_store
  | DELETE_string string_value =>
      fst (delete_string string_value string_store)
  end.

(** The store after serving the requests in turn, from the empty store the
    module starts with. *)
Definition serve_all (requests : list request) : store :=
  foldl serve [] requests.

(** What every stored binding looks like: the key is the record's id, the
    id is the digest of the record's value, and the properties are those of
    the value; no key is bound twice. *)
Definition store_ok (string_store : store) : Prop :=
  NoDup (dict_keys string_store) /\
  Forall (fun kv =>
            fst kv = StringData.id (snd kv) /\
            StringData.id (snd kv) =
              sha256_hexdigest (StringData.value (snd kv)) /\
            StringData.properties (snd kv) =
              analyze_string (StringData.value (snd kv)))
         string_store.

(** The predicates of a filter specification read on a string itself. *)
Definition value_passes (filters : Filters.t) (value : str) : bool :=
  from_option
    (fun v => Bool.eqb (bool_decide (str_lower value = rev (str_lower value)))
                v)
    true (Filters.is_palindrome filters)
  && from_option (fun n => (n <=? len value)%Z) true
       (Filters.min_length filters)
  && from_option (fun n => (len value <=? n)%Z) true
       (Filters.max_length filters)
  && from_option (fun n => (len (split value) =? n)%Z) true
       (Filters.word_count filters)
  && from_option (fun c => str_in c value) true
       (Filters.contains_character filters).
End OtherHandlers.

(** The pattern has no capturing group. *)
Fixpoint group_free (r : regex) : bool :=
  match r with
  | Lit _ | Class _ | Plus _ => true
  | Seq r1 r2 | Alt r1 r2 => group_free r1 && group_free r2
  | Opt r1 => group_free r1
  | Group _ => false
  end.

(** ** More vocabulary *)

(** Text occurs somewhere in a string. *)
Definition occurs (t s : str) : Prop := exists pre post, s = pre ++ t ++ post.

(** What the containment pattern may skip before the letter: "the ", then
    "letter " or "character ", then a quote. *)
Definition the_options : list str := [[]; py "the "].
Definition marker_options : list str := [[]; py "letter "; py "character "].
Definition quote_options : list str := [[]; [39%N]; [34%N]].

Section PropertyVocabulary.
Context `{rt : Runtime}.

(** A character [split()] keeps. *)
Definition nonspace (c : N) : bool := negb (isspace c).
End PropertyVocabulary.

(** * Properties *)

(** ** Strings *)

Lemma strip_prefix_Some (p s rest : str) :
  strip_prefix p s = Some rest <-> s = p ++ rest.
Proof.
  revert s. induction p as [|a p IH]; intros s; simpl.
  - split; [intros [= ->]|intros ->]; done.
  - destruct s as [|b s]; [split; [done|intros [=]]|].
    destruct (N.eqb_spec a b) as [->|Hne].
    + rewrite IH. split; [intros ->; done | intros [= ->]; done].
    + split; [done | intros [= Hab _]; done].
Qed.

Lemma strip_prefix_app (p rest : str) : strip_prefix p (p ++ rest) = Some rest.
Proof. by apply strip_prefix_Some. Qed.

Lemma strip_prefix_None (p s : str) :
  strip_prefix p s = None <-> forall rest, s <> p ++ rest.
Proof.
  split.
  - intros H rest ->. by rewrite strip_prefix_app in H.
  - intros H. destruct (strip_prefix p s) as [rest|] eqn:E; [|done].
    apply strip_prefix_Some in E. by destruct (H rest).
Qed.

(** [sub in s] holds exactly when [s] has [sub] somewhere inside. *)
Lemma str_in_spec (sub s : str) :
  str_in sub s = true <-> exists pre post, s = pre ++ sub ++ post.
Proof.
  induction s as [|c s IH]; simpl.
  - destruct (strip_prefix sub []) as [rest|] eqn:E.
    + apply strip_prefix_Some in E. split; [|done].
      intros _. exists [], rest. done.
    + split; [done|]. intros (pre & post & H).
      destruct pre; [|done]. simpl in H.
      apply strip_prefix_None with (rest := post) in E. done.
  - destruct (strip_prefix sub (c :: s)) as [rest|] eqn:E.
    + apply strip_prefix_Some in E. split; [|done].
      intros _. exists [], rest. done.
    + rewrite IH. split.
      * intros (pre & post & ->). by exists (c :: pre), post.
      * intros (pre & post & H). destruct pre as [|c' pre].
        -- simpl in H. apply strip_prefix_None with (rest := post) in E. done.
        -- injection H as -> ->. by exists pre, post.
Qed.

Lemma str_in_false (sub s : str) :
  str_in sub s = false <-> forall pre post, s <> pre ++ sub ++ post.
Proof.
  rewrite <-not_true_iff_false, str_in_spec. split.
  - intros H pre post E. apply H. by exists pre, post.
  - intros H (pre & post & E). by apply (H pre post).
Qed.

(** The empty string is inside every string. *)
Lemma str_in_nil (s : str) : str_in [] s = true.
Proof. by destruct s. Qed.

(** ** The matcher *)

Lemma starts_with_class_app (p : N -> bool) (b post : str) :
  b <> [] -> starts_with_class p (b ++ post) = starts_with_class p b.
Proof. by destruct b. Qed.

Section MatcherFacts.
Context {A : Type}.
Implicit Types (k : @cont A) (p : N -> bool).

(** A success of [class+] comes from a non-empty run of the class followed
    by a success of the continuation. *)
Lemma match_plus_inv p cap k inp x :
  match_plus p cap k inp = Some x ->
  exists ds rest, inp = ds ++ rest /\ ds <> [] /\ forallb p ds = true /\
                  k rest cap = Some x.
Proof.
  induction inp as [|c inp IH]; simpl; [done|].
  destruct (p c) eqn:Hc; [|done].
  destruct (match_plus p cap k inp) as [y|] eqn:E.
  - intros [= ->]. destruct IH as (ds & rest & -> & Hne & Hall & Hk); [done|].
    exists (c :: ds), rest. simpl. by rewrite Hc.
  - intros Hk. exists [c], inp. simpl. by rewrite Hc.
Qed.

Lemma match_plus_no_start p cap k inp :
  starts_with_class p inp = false -> match_plus p cap k inp = None.
Proof. destruct inp as [|c inp]; simpl; [done|]. by intros ->. Qed.

(** Greedy: when the continuation accepts what follows the whole run, that
    is the answer. *)
Lemma match_plus_greedy p cap k ds rest x :
  ds <> [] -> forallb p ds = true -> starts_with_class p rest = false ->
  k rest cap = Some x ->
  match_plus p cap k (ds ++ rest) = Some x.
Proof.
  intros Hne Hall Hrest Hk. induction ds as [|d ds IH]; [done|].
  simpl in *. apply andb_prop in Hall as [-> Hall].
  destruct ds as [|d' ds].
  - simpl. by rewrite match_plus_no_start.
  - by rewrite IH.
Qed.
End MatcherFacts.

(** One step of the matcher on each construct. *)
Section MatcherSteps.
Context {A : Type}.
Implicit Types (k : @cont A) (p : N -> bool) (r : regex).

Lemma rmatch_seq r1 r2 inp cap k :
  rmatch (r1 &> r2) inp cap k =
  rmatch r1 inp cap (fun inp' cap' => rmatch r2 inp' cap' k).
Proof. reflexivity. Qed.

Lemma rmatch_group r inp cap k :
  rmatch (Group r) inp cap k =
  rmatch r inp cap
    (fun inp' _ => k inp' (Some (take (length inp - length inp') inp))).
Proof. reflexivity. Qed.

Lemma rmatch_lit_inv s inp cap k x :
  rmatch (Lit s) inp cap k = Some x ->
  exists rest, inp = s ++ rest /\ k rest cap = Some x.
Proof.
  simpl. destruct (strip_prefix s inp) as [rest|] eqn:E; [|done].
  apply strip_prefix_Some in E as ->. by exists rest.
Qed.

Lemma rmatch_lit_app s rest cap k :
  rmatch (Lit s) (s ++ rest) cap k = k rest cap.
Proof. simpl. by rewrite strip_prefix_app. Qed.

Lemma rmatch_lit_mismatch s inp cap k :
  strip_prefix s inp = None -> rmatch (Lit s) inp cap k = None.
Proof. simpl. by intros ->. Qed.

Lemma rmatch_class_accept p c rest cap k :
  p c = true -> rmatch (Class p) (c :: rest) cap k = k rest cap.
Proof. simpl. by intros ->. Qed.

Lemma rmatch_class_reject p c rest cap k :
  p c = false -> rmatch (Class p) (c :: rest) cap k = None.
Proof. simpl. by intros ->. Qed.

Lemma rmatch_opt_inv r inp cap k x :
  rmatch (Opt r) inp cap k = Some x ->
  rmatch r inp cap k = Some x \/ k inp cap = Some x.
Proof. simpl. destruct (rmatch r inp cap k); [left|right]; done. Qed.

Lemma rmatch_opt_taken r inp cap k x :
  rmatch r inp cap k = Some x -> rmatch (Opt r) inp cap k = Some x.
Proof. simpl. by intros ->. Qed.

Lemma rmatch_opt_skipped r inp cap k :
  rmatch r inp cap k = None -> rmatch (Opt r) inp cap k = k inp cap.
Proof. simpl. by intros ->. Qed.

Lemma rmatch_alt_inv r1 r2 inp cap k x :
  rmatch (Alt r1 r2) inp cap k = Some x ->
  rmatch r1 inp cap k = Some x \/ rmatch r2 inp cap k = Some x.
Proof. simpl. destruct (rmatch r1 inp cap k); [left|right]; done. Qed.

Lemma rmatch_alt_first r1 r2 inp cap k x :
  rmatch r1 inp cap k = Some x -> rmatch (Alt r1 r2) inp cap k = Some x.
Proof. simpl. by intros ->. Qed.

Lemma rmatch_alt_second r1 r2 inp cap k :
  rmatch r1 inp cap k = None ->
  rmatch (Alt r1 r2) inp cap k = rmatch r2 inp cap k.
Proof. simpl. by intros ->. Qed.
End MatcherSteps.

Lemma take_consumed {X} (ds rest : list X) :
  take (length (ds ++ rest) - length rest) (ds ++ rest) = ds.
Proof.
  rewrite length_app, Nat.add_sub. by rewrite take_app_length.
Qed.

(** Every text splits into its longest run of the class and the rest. *)
Lemma run_split (p : N -> bool) (s : str) :
  exists ds rest, s = ds ++ rest /\ forallb p ds = true /\
                  starts_with_class p rest = false.
Proof.
  induction s as [|c s (ds & rest & -> & Hall & Hrest)].
  - by exists [], [].
  - destruct (p c) eqn:Hc.
    + exists (c :: ds), rest. simpl. by rewrite Hc.
    + exists [], (c :: ds ++ rest). done.
Qed.

(** [lit(class+)]: a match at the start of the text is the literal followed
    by the whole run of the class, and group 1 is that run. *)
Lemma match_here_run (a : str) (p : N -> bool) (inp : str) (m : Match) :
  match_here (Lit a &> Group (Plus p)) inp = Some m <->
  exists ds rest, inp = a ++ ds ++ rest /\ ds <> [] /\ forallb p ds = true /\
                  starts_with_class p rest = false /\ m = mkMatch ds.
Proof.
  unfold match_here. cbn [rmatch]. split.
  - destruct (strip_prefix a inp) as [r1|] eqn:Ea; [|done].
    apply strip_prefix_Some in Ea as ->. intros H.
    destruct (run_split p r1) as (ds & rest & -> & Hall & Hrest).
    assert (ds <> []) as Hne.
    { intros ->. simpl in H. by rewrite match_plus_no_start in H. }
    exists ds, rest. repeat split; try done.
    erewrite match_plus_greedy in H; [| done..| reflexivity].
    injection H as <-. simpl. by rewrite take_consumed.
  - intros (ds & rest & -> & Hne & Hall & Hrest & ->).
    rewrite strip_prefix_app.
    erewrite match_plus_greedy; [| done..| reflexivity].
    simpl. by rewrite take_consumed.
Qed.

(** [lit(class+)lit2 s?]: a match at the start of the text is the literal,
    a run of the class, and the second literal; group 1 is the run. *)
Lemma match_here_run_lit (a b c : str) (p : N -> bool) (inp : str)
    (m : Match) :
  b <> [] -> starts_with_class p b = false ->
  match_here (Lit a &> Group (Plus p) &> Lit b &> Opt (Lit c)) inp = Some m <->
  exists ds post, inp = a ++ ds ++ b ++ post /\ ds <> [] /\
                  forallb p ds = true /\ m = mkMatch ds.
Proof.
  intros Hb Hpb. unfold match_here. cbn [rmatch]. split.
  - destruct (strip_prefix a inp) as [r1|] eqn:Ea; [|done].
    apply strip_prefix_Some in Ea as ->. intros H.
    apply match_plus_inv in H as (ds & rest & -> & Hne & Hall & H).
    destruct (strip_prefix b rest) as [post|] eqn:Eb; [|done].
    apply strip_prefix_Some in Eb as ->.
    exists ds, post. repeat split; try done.
    rewrite take_consumed in H.
    destruct (strip_prefix c post); by injection H as <-.
  - intros (ds & post & -> & Hne & Hall & ->).
    rewrite strip_prefix_app.
    apply match_plus_greedy; [done..| by rewrite starts_with_class_app |].
    rewrite strip_prefix_app, take_consumed.
    by destruct (strip_prefix c post).
Qed.

(** *** [re.search] *)

(** No start position of the text has a match. *)
Lemma re_search_None (r : regex) (s : str) :
  re_search r s = None <->
  forall pre inp, s = pre ++ inp -> match_here r inp = None.
Proof.
  induction s as [|c s IH]; simpl.
  - destruct (match_here r []) eqn:E.
    + split; [done|]. intros H. by rewrite (H [] []) in E.
    + split; [|done]. intros _ pre inp H.
      symmetry in H. apply app_eq_nil in H as [-> ->]. done.
  - destruct (match_here r (c :: s)) eqn:E.
    + split; [done|]. intros H. by rewrite (H [] (c :: s)) in E.
    + rewrite IH. split.
      * intros H [|c' pre] inp Heq; simpl in Heq; [by subst|].
        injection Heq as -> ->. by apply (H pre).
      * intros H pre inp ->. by apply (H (c :: pre)).
Qed.

(** The match found is the one at the leftmost start position having one. *)
Lemma re_search_leftmost (r : regex) (pre inp : str) (m : Match) :
  match_here r inp = Some m ->
  (forall pre1 pre2, pre = pre1 ++ pre2 -> pre2 <> [] ->
                     match_here r (pre2 ++ inp) = None) ->
  re_search r (pre ++ inp) = Some m.
Proof.
  intros Hm. induction pre as [|c pre IH]; intros Hno.
  - destruct inp; simpl; by rewrite Hm.
  - pose proof (Hno [] (c :: pre) eq_refl) as H0. simpl in *.
    rewrite H0; [|done]. apply IH.
    intros pre1 pre2 -> Hne. by apply (Hno (c :: pre1)).
Qed.

Lemma re_search_Some_inv (r : regex) (s : str) (m : Match) :
  re_search r s = Some m ->
  exists pre inp, s = pre ++ inp /\ match_here r inp = Some m.
Proof.
  induction s as [|c s IH]; simpl.
  - destruct (match_here r []) eqn:E; [|done].
    intros [= <-]. by exists [], [].
  - destruct (match_here r (c :: s)) eqn:E.
    + intros [= <-]. by exists [], (c :: s).
    + intros (pre & inp & -> & H)%IH. by exists (c :: pre), inp.
Qed.

(** [re.search] finds a match at a start position no other match starts
    before. *)
Lemma re_search_first (r : regex) (pre inp : str) (m : Match) :
  match_here r inp = Some m ->
  (forall pre' inp' m', pre ++ inp = pre' ++ inp' ->
     match_here r inp' = Some m' -> length pre <= length pre') ->
  re_search r (pre ++ inp) = Some m.
Proof.
  intros Hm Hfirst. apply re_search_leftmost; [done|].
  intros pre1 pre2 -> Hne.
  destruct (match_here r (pre2 ++ inp)) as [m'|] eqn:E; [|done].
  exfalso. apply (Hfirst pre1 (pre2 ++ inp) m') in E.
  - rewrite length_app in E. destruct pre2; [done|]. simpl in E. lia.
  - by rewrite <-app_assoc.
Qed.

(** ** The filter engine *)

Lemma filter_twice {X} (f g : X -> bool) (l : list X) :
  List.filter g (List.filter f l) = List.filter (fun x => f x && g x) l.
Proof.
  induction l as [|x l IH]; simpl; [done|].
  destruct (f x); simpl; [destruct (g x)|]; by rewrite IH.
Qed.

Lemma filter_all {X} (l : list X) : l = List.filter (fun _ => true) l.
Proof. induction l; simpl; congruence. Qed.

Lemma filter_sublist {X} (f : X -> bool) (l : list X) :
  sublist (List.filter f l) l.
Proof.
  induction l as [|x l IH]; simpl; [constructor|].
  destruct (f x); by constructor.
Qed.

Lemma passes_holds_all (filters : Filters.t) (s : StringData.t) :
  passes filters s = true <-> holds_all filters s.
Proof.
  unfold passes, holds_all. rewrite !andb_true_iff.
  destruct filters as [ip mn mx wc cc]; simpl.
  assert (forall {X} (o : option X) (t : X -> bool) (P : X -> Prop),
            (forall v, t v = true <-> P v) ->
            from_option t true o = true <-> forall v, o = Some v -> P v)
    as Hopt.
  { intros X [v|] t P HP; simpl.
    - rewrite HP. split; [by intros ? ? [= <-]|auto].
    - split; [done|auto]. }
  rewrite (Hopt _ ip _ (fun v => StringProperties.is_palindrome
                                   (StringData.properties s) = v)),
          (Hopt _ mn _ (fun n => (StringProperties.length
                                    (StringData.properties s) >= n)%Z)),
          (Hopt _ mx _ (fun n => (StringProperties.length
                                    (StringData.properties s) <= n)%Z)),
          (Hopt _ wc _ (fun n => StringProperties.word_count
                                   (StringData.properties s) = n)),
          (Hopt _ cc _ (fun c => exists pre post,
                                   StringData.value s = pre ++ c ++ post)).
  - tauto.
  - intros c. apply str_in_spec.
  - intros n. apply Z.eqb_eq.
  - intros n. apply Z.leb_le.
  - intros n. rewrite Z.leb_le. lia.
  - intros v. apply Bool.eqb_true_iff.
Qed.

Lemma apply_filters_filter (strings : list StringData.t)
    (filters : Filters.t) :
  apply_filters strings filters = List.filter (passes filters) strings.
Proof.
  unfold apply_filters, passes.
  destruct filters as [ip mn mx wc cc]; simpl.
  destruct ip, mn, mx, wc, cc as [[|c0 cc]|]; simpl;
    rewrite ?filter_twice;
    first [ apply List.filter_ext
          | etransitivity; [apply filter_all|]; apply List.filter_ext ];
    intros s; simpl;
    rewrite ?str_in_nil, ?andb_true_r, ?andb_true_l, ?andb_assoc;
    reflexivity.
Qed.

(** C6. [apply_filters] returns exactly the records of its input for which
    every present predicate holds (palindrome flag equal, length at least
    [min_length], length at most [max_length], word count equal, the
    containment text occurring in the raw value), in the order and with the
    multiplicity they have in the input: it is the input filtered by the
    conjunction of the present predicates, hence a subsequence of it. Absent
    predicates ask nothing. *)
Theorem apply_filters_conjunction_stable :
  forall (strings : list StringData.t) (filters : Filters.t),
    apply_filters strings filters = List.filter (passes filters) strings /\
    (forall s, passes filters s = true <-> holds_all filters s) /\
    sublist (apply_filters strings filters) strings /\
    (forall s, s ∈ apply_filters strings filters <->
               s ∈ strings /\ holds_all filters s) /\
    apply_filters strings Filters.empty = strings.
Proof.
  intros strings filters. split; [apply apply_filters_filter|].
  split; [apply passes_holds_all|].
  rewrite !apply_filters_filter.
  split; [apply filter_sublist|]. split.
  - intros s. rewrite !list_elem_of_In, List.filter_In, passes_holds_all.
    done.
  - symmetry. apply filter_all.
Qed.

(** ** The ordered dict *)

Section DictFacts.
Context {V : Type}.
Implicit Types (d : dict V) (k : str) (v : V).

Lemma dict_contains_false k d :
  dict_contains k d = false <-> dict_get k d = None.
Proof. unfold dict_contains. by destruct (dict_get k d). Qed.

Lemma dict_contains_true k d :
  dict_contains k d = true <-> is_Some (dict_get k d).
Proof.
  unfold dict_contains. destruct (dict_get k d); split; done.
Qed.

(** Binding a new key appends at the end. *)
Lemma dict_setitem_new k v d :
  dict_get k d = None -> dict_setitem k v d = d ++ [(k, v)].
Proof.
  induction d as [|[k' v'] d IH]; simpl; [done|].
  destruct (decide (k = k')); [done|]. intros H. by rewrite IH.
Qed.

Lemma dict_get_setitem k v d : dict_get k (dict_setitem k v d) = Some v.
Proof.
  induction d as [|[k' v'] d IH]; simpl.
  - by rewrite decide_True.
  - destruct (decide (k = k')) as [->|Hne]; simpl.
    + by rewrite decide_True.
    + by rewrite decide_False.
Qed.

Lemma dict_get_setitem_ne k k' v d :
  k' <> k -> dict_get k' (dict_setitem k v d) = dict_get k' d.
Proof.
  intros Hne. induction d as [|[k0 v0] d IH]; simpl.
  - by rewrite decide_False.
  - destruct (decide (k = k0)) as [->|Hne0]; simpl.
    + by rewrite !decide_False.
    + by rewrite IH.
Qed.
End DictFacts.

(** ** The frequency map *)

Lemma sum_values_insert (d : gmap N Z) (c : N) (v : Z) :
  sum_values (<[c := v]> d) = (sum_values d - default 0 (d !! c) + v)%Z.
Proof.
  unfold sum_values.
  assert (forall (m : gmap N Z) x, m !! c = None ->
            map_fold (fun _ v acc => (v + acc)%Z) 0%Z (<[c := x]> m) =
            (x + map_fold (fun _ v acc => (v + acc)%Z) 0%Z m)%Z) as Hins.
  { intros m x Hm. apply (map_fold_insert_L (fun _ v acc => (v + acc)%Z));
      [intros; lia | done]. }
  destruct (d !! c) as [old|] eqn:E; simpl.
  - rewrite <-(insert_delete_id d c old) at 2 by done.
    rewrite <-insert_delete_eq.
    rewrite !Hins by apply lookup_delete_eq. lia.
  - rewrite Hins by done. lia.
Qed.

Lemma occurrences_cons (c a : N) (s : str) :
  occurrences c (a :: s) =
  ((if decide (c = a) then 1 else 0) + occurrences c s)%Z.
Proof.
  unfold occurrences, len. simpl.
  destruct (N.eqb_spec c a); case_decide; try done; simpl; lia.
Qed.

Lemma occurrences_nonneg (c : N) (s : str) : (0 <= occurrences c s)%Z.
Proof. unfold occurrences, len. lia. Qed.

Lemma occurrences_pos (c : N) (s : str) : c ∈ s -> (0 < occurrences c s)%Z.
Proof.
  induction s as [|a s IH]; [by intros ?%elem_of_nil|].
  rewrite occurrences_cons. pose proof (occurrences_nonneg c s).
  intros [->|Hin%IH]%elem_of_cons.
  - case_decide; [lia|done].
  - destruct (decide (c = a)); lia.
Qed.

Lemma occurrences_absent (c : N) (s : str) : c ∉ s -> occurrences c s = 0%Z.
Proof.
  induction s as [|a s IH]; [done|].
  rewrite occurrences_cons, not_elem_of_cons. intros [Hne Hnin].
  rewrite IH by done. by case_decide.
Qed.

(** Closes a goal whose hypotheses on membership in [a :: s] and in [s]
    contradict each other. *)
Ltac by_membership :=
  exfalso;
  repeat match goal with
         | H : _ ∉ _ :: _ |- _ => apply not_elem_of_cons in H as [? ?]
         | H : _ ∈ _ :: _ |- _ => apply elem_of_cons in H as [?|?]
         end;
  done.

Section Facts.
Context `{rt : Runtime}.

Lemma count_fold_lookup (s : str) (d : gmap N Z) (c : N) :
  foldl count_step d s !! c =
  if decide (c ∈ s)
  then Some (default 0 (d !! c) + occurrences c s)%Z
  else d !! c.
Proof.
  revert d. induction s as [|a s IH]; intros d.
  - cbn [foldl]. case_decide as H; [by apply elem_of_nil in H|done].
  - cbn [foldl]. rewrite IH, occurrences_cons. unfold count_step.
    destruct (decide (c = a)) as [->|Hne].
    + rewrite lookup_insert_eq.
      repeat case_decide; simpl; try by_membership; f_equal;
        rewrite ?occurrences_absent by done; lia.
    + rewrite lookup_insert_ne by done.
      repeat case_decide; simpl; try by_membership; try done;
        f_equal; lia.
Qed.

Lemma count_fold_sum (s : str) (d : gmap N Z) :
  sum_values (foldl count_step d s) = (sum_values d + len s)%Z.
Proof.
  revert d. induction s as [|a s IH]; intros d; simpl.
  - unfold len. simpl. lia.
  - rewrite IH. unfold count_step. rewrite sum_values_insert.
    unfold len. simpl length. lia.
Qed.

(** C7. [analyze_string(s).is_palindrome] is true exactly when the
    lower-cased [s] equals its own reversal: the comparison ignores case
    but neither spaces nor punctuation. "Racecar" and the empty string are
    palindromes, "hello" is not, and "taco cat", a palindrome only once
    its space is dropped, is not. *)
Theorem is_palindrome_lowercase_reversal :
  (forall s : str,
     StringProperties.is_palindrome (analyze_string s) = true <->
     str_lower s = rev (str_lower s)) /\
  StringProperties.is_palindrome (analyze_string (py "Racecar")) = true /\
  StringProperties.is_palindrome (analyze_string (py "hello")) = false /\
  StringProperties.is_palindrome (analyze_string (py "")) = true /\
  StringProperties.is_palindrome (analyze_string (py "taco cat")) = false /\
  StringProperties.is_palindrome (analyze_string (py "tacocat")) = true.
Proof.
  split; [|by vm_compute].
  intros s. unfold analyze_string. simpl. apply bool_decide_eq_true.
Qed.

(** C8. The frequency map of [analyze_string(s)] has an entry for exactly
    the characters occurring in [s] (its key set is [set(s)]; upper and
    lower case are different keys), each bound to its number of
    occurrences, and its counts sum to the [length] property. *)
Theorem character_frequency_covers_and_sums :
  (forall s : str,
     let p := analyze_string s in
     let freq := StringProperties.character_frequency_map p in
     (forall c, is_Some (freq !! c) <-> c ∈ s) /\
     dom freq = set_of s /\
     (forall c, c ∈ s -> freq !! c = Some (occurrences c s) /\
                         (0 < occurrences c s)%Z) /\
     sum_values freq = StringProperties.length p /\
     StringProperties.length p = len s) /\
  StringProperties.character_frequency_map (analyze_string (py "Aa"))
    !! 65%N = Some 1%Z /\
  StringProperties.character_frequency_map (analyze_string (py "Aa"))
    !! 97%N = Some 1%Z.
Proof.
  split; [|by vm_compute].
  intros s p freq.
  assert (forall c, freq !! c =
                    if decide (c ∈ s) then Some (occurrences c s) else None)
    as Hfreq.
  { intros c. subst freq p. simpl. unfold Counter.
    rewrite count_fold_lookup, lookup_empty. simpl.
    case_decide; [f_equal; lia|done]. }
  assert (forall c, is_Some (freq !! c) <-> c ∈ s) as Hkeys.
  { intros c. rewrite Hfreq. case_decide; split; done. }
  split; [done|]. split.
  { apply set_eq. intros c. unfold set_of.
    by rewrite elem_of_dom, elem_of_list_to_set. }
  split.
  { intros c Hc. rewrite Hfreq. case_decide; [|done].
    split; [done|by apply occurrences_pos]. }
  split; [|done].
  subst freq p. simpl. unfold Counter.
  rewrite count_fold_sum. unfold sum_values. rewrite map_fold_empty. lia.
Qed.
End Facts.

Section Handlers.
Context `{rt : Runtime}.

(** C9. [create_string] on a value whose content hash is already a key of
    the store raises the 409 error and hands the store back as it was.
    Otherwise it binds the hash to one new record (the value, its
    properties, the timestamp), placed after the records already there,
    leaves every other key as it was, and returns that record; creating
    the same value again, at whatever time, raises the 409 error and
    changes nothing. *)
Theorem create_string_duplicate_or_insert :
  forall (utcnow value : str) (string_store : store),
    let h := sha256_hexdigest value in
    (dict_contains h string_store = true ->
     create_string utcnow value string_store =
       (string_store, Raise duplicate_error)) /\
    (dict_contains h string_store = false ->
     let record :=
       StringData.mk h value (analyze_string value) (utcnow ++ py "Z") in
     let string_store' := string_store ++ [(h, record)] in
     create_string utcnow value string_store =
       (string_store', Return record) /\
     dict_get h string_store' = Some record /\
     (forall k, k <> h -> dict_get k string_store' = dict_get k string_store) /\
     dict_values string_store' = dict_values string_store ++ [record] /\
     (forall utcnow',
        create_string utcnow' value string_store' =
          (string_store', Raise duplicate_error))).
Proof.
  intros utcnow value string_store h. split.
  - intros Hin. unfold create_string. simpl. fold h. by rewrite Hin.
  - intros Hnew record string_store'.
    assert (dict_setitem h record string_store = string_store') as Hset.
    { apply dict_setitem_new. by apply dict_contains_false. }
    assert (dict_get h string_store' = Some record) as Hget.
    { rewrite <-Hset. apply dict_get_setitem. }
    repeat split.
    + unfold create_string. simpl. fold h. rewrite Hnew.
      fold record. by rewrite Hset.
    + done.
    + intros k Hk. rewrite <-Hset. by apply dict_get_setitem_ne.
    + unfold dict_values, string_store'. by rewrite map_app.
    + intros utcnow'. unfold create_string. simpl. fold h.
      unfold dict_contains. by rewrite Hget.
Qed.
End Handlers.

(** C1, as amended. [GET /strings] called with both bounds and
    [min_length > max_length] raises, whatever the store holds and whatever
    the other parameters are, the 400 (bad request) error "min_length cannot
    be greater than max_length": no record is read, filtered or returned. *)
Theorem list_conflicting_bounds_bad_request :
  forall (string_store : store) (is_palindrome : option bool)
         (min_length max_length : Z) (word_count : option Z)
         (contains_character : option str),
    (min_length > max_length)%Z ->
    list_strings_with_filters string_store is_palindrome (Some min_length)
      (Some max_length) word_count contains_character =
    Raise (HTTPException HTTP_400_BAD_REQUEST
             (py "min_length cannot be greater than max_length")).
Proof.
  intros string_store ip mn mx wc cc H. unfold list_strings_with_filters.
  destruct (Z.gtb_spec mn mx) as [_|Hle]; [done|lia].
Qed.

Lemma list_conflicting_bounds_bad_request_witness :
  (10 > 5)%Z /\
  list_strings_with_filters [] None (Some 10%Z) (Some 5%Z) None None =
  Raise (HTTPException HTTP_400_BAD_REQUEST
           (py "min_length cannot be greater than max_length")).
Proof.
  split; [lia|].
  apply (list_conflicting_bounds_bad_request [] None 10 5 None None). lia.
Defined.

(** C1 as stated fails: with [min_length=10] and [max_length=5] the error
    raised is of the bad-request class (400), not of the unprocessable class
    (422). *)
Lemma list_conflicting_bounds_not_unprocessable :
  list_strings_with_filters [] None (Some 10%Z) (Some 5%Z) None None =
    Raise (HTTPException 400
             (py "min_length cannot be greater than max_length")) /\
  ~ exists detail,
      list_strings_with_filters [] None (Some 10%Z) (Some 5%Z) None None =
      Raise (HTTPException HTTP_422_UNPROCESSABLE_ENTITY detail).
Proof.
  split; [reflexivity|]. intros [detail H]. vm_compute in H. discriminate H.
Qed.

(** ** The phrase interpreter *)

Section Interpreter.
Context `{rt : Runtime}.

(** What the rules leave in each key, later writes over earlier ones. *)
Lemma build_filters_fields (q : str) :
  build_filters q =
  Filters.mk
    (if str_in (py "palindrom") q then Some true else None)
    (match re_search exactly_re q with
     | Some m => Some (int (group1 m))
     | None =>
         match re_search at_least_re q with
         | Some m => Some (int (group1 m))
         | None =>
             match re_search longer_re q with
             | Some m => Some (int (group1 m) + 1)%Z
             | None => None
             end
         end
     end)
    (match re_search exactly_re q with
     | Some m => Some (int (group1 m))
     | None =>
         match re_search at_most_re q with
         | Some m => Some (int (group1 m))
         | None =>
             match re_search shorter_re q with
             | Some m => Some (int (group1 m) - 1)%Z
             | None => None
             end
         end
     end)
    (if str_in (py "single word") q || str_in (py "one word") q
     then Some 1%Z
     else if str_in (py "two word") q then Some 2%Z
     else if str_in (py "three word") q then Some 3%Z
     else None)
    (if str_in (py "first vowel") q then Some (py "a")
     else match re_search contains_re q with
          | Some m => Some (group1 m)
          | None => None
          end).
Proof.
  unfold build_filters.
  destruct (str_in (py "palindrom") q),
    (str_in (py "single word") q || str_in (py "one word") q),
    (str_in (py "two word") q), (str_in (py "three word") q),
    (re_search longer_re q), (re_search shorter_re q),
    (re_search at_least_re q), (re_search at_most_re q),
    (re_search exactly_re q), (re_search contains_re q),
    (str_in (py "first vowel") q); reflexivity.
Qed.

Lemma no_rule_matches_empty (q : str) :
  no_rule_matches q <-> build_filters q = Filters.empty.
Proof.
  rewrite build_filters_fields. unfold no_rule_matches, Filters.empty.
  split.
  - intros (-> & -> & -> & -> & -> & -> & -> & -> & -> & -> & -> & ->).
    reflexivity.
  - intros [= H1 H2 H3 H4 H5].
    destruct (str_in (py "palindrom") q); [done|].
    destruct (str_in (py "single word") q); [done|].
    destruct (str_in (py "one word") q); [done|].
    destruct (str_in (py "two word") q); [done|].
    destruct (str_in (py "three word") q); [done|].
    destruct (re_search exactly_re q); [done|].
    destruct (re_search at_least_re q); [done|].
    destruct (re_search at_most_re q); [done|].
    destruct (re_search longer_re q); [done|].
    destruct (re_search shorter_re q); [done|].
    destruct (str_in (py "first vowel") q); [done|].
    destruct (re_search contains_re q); done.
Qed.

Lemma is_empty_true (filters : Filters.t) :
  Filters.is_empty filters = true <-> filters = Filters.empty.
Proof.
  destruct filters as [[?|] [?|] [?|] [?|] [?|]]; split; done.
Qed.

Lemma bounds_conflict_not_empty (filters : Filters.t) :
  bounds_conflict filters -> Filters.is_empty filters = false.
Proof.
  intros (mn & mx & Hmn & Hmx & _).
  destruct filters as [[?|] [?|] [?|] [?|] [?|]]; done.
Qed.

(** The three ways [parse_natural_language_query] ends. *)
Lemma parse_cases (query : str) :
  let filters := build_filters (str_lower query) in
  (bounds_conflict filters /\
   parse_natural_language_query query = Raise (ValueError conflicting_msg))
  \/ (~ bounds_conflict filters /\ filters = Filters.empty /\
      parse_natural_language_query query = Raise (ValueError unable_msg))
  \/ (~ bounds_conflict filters /\ filters <> Filters.empty /\
      parse_natural_language_query query = Return filters).
Proof.
  intros filters. unfold parse_natural_language_query. fold filters.
  unfold bounds_conflict.
  destruct (Filters.min_length filters) as [mn|] eqn:Emn,
           (Filters.max_length filters) as [mx|] eqn:Emx;
    try destruct (Z.gtb_spec mn mx) as [Hgt|Hle];
    try (left; split; [exists mn, mx; repeat split; lia | reflexivity]);
    right; simpl;
    (destruct (Filters.is_empty filters) eqn:Eempty;
     [ left; apply is_empty_true in Eempty
     | right; assert (filters <> Filters.empty)
         by (rewrite <-is_empty_true; congruence) ];
     (split; [|done]); intros (mn' & mx' & ? & ? & ?);
     simplify_eq; lia).
Qed.

Lemma msgs_differ : conflicting_msg <> unable_msg.
Proof. intros H. vm_compute in H. discriminate H. Qed.

(** C2. [parse_natural_language_query] raises the "unable to parse" error
    exactly when no rule applies to the lower-cased phrase (the [filters]
    dict is still empty), raises the "conflicting filters" error exactly
    when the rules leave both bounds set with [min_length > max_length],
    and returns the dict otherwise. The endpoint answers the first with
    status 400 and the second with status 422, two different classes.
    "banana" is of the first kind; "longer than 20 and shorter than 5",
    which sets [min_length] 21 and [max_length] 4, of the second. *)
Theorem interpret_failures_distinct :
  (forall (phrase : str) (string_store : store),
     let q := str_lower phrase in
     let filters := build_filters q in
     (parse_natural_language_query phrase = Raise (ValueError unable_msg)
      <-> no_rule_matches q) /\
     (no_rule_matches q <-> filters = Filters.empty) /\
     (parse_natural_language_query phrase =
        Raise (ValueError conflicting_msg)
      <-> bounds_conflict filters) /\
     (parse_natural_language_query phrase = Return filters
      <-> ~ no_rule_matches q /\ ~ bounds_conflict filters) /\
     (no_rule_matches q ->
      filter_by_natural_language string_store phrase =
        Raise (HTTPException HTTP_400_BAD_REQUEST
                 (py "Unable to parse natural language query: " ++
                  unable_msg))) /\
     (bounds_conflict filters ->
      filter_by_natural_language string_store phrase =
        Raise (HTTPException HTTP_422_UNPROCESSABLE_ENTITY
                 conflicting_msg))) /\
  HTTP_400_BAD_REQUEST <> HTTP_422_UNPROCESSABLE_ENTITY /\
  parse_natural_language_query (py "banana") =
    Raise (ValueError unable_msg) /\
  parse_natural_language_query (py "longer than 20 and shorter than 5") =
    Raise (ValueError conflicting_msg) /\
  build_filters (py "longer than 20 and shorter than 5") =
    Filters.mk None (Some 21%Z) (Some 4%Z) None None.
Proof.
  split; [|by vm_compute].
  intros phrase string_store. cbv zeta.
  pose proof msgs_differ as Hmsg.
  pose proof (no_rule_matches_empty (str_lower phrase)) as Hempty.
  pose proof (bounds_conflict_not_empty
                (build_filters (str_lower phrase))) as Hconf.
  unfold filter_by_natural_language.
  destruct (parse_cases phrase)
    as [[Hc ->]|[(Hnc & He & ->)|(Hnc & Hne & ->)]];
    revert Hempty Hconf;
    set (q := str_lower phrase) in *;
    set (filters := build_filters q) in *; intros Hempty Hconf;
    assert (filters = Filters.empty -> Filters.is_empty filters = true)
      as Hemp by (by intros ->).
  - assert (~ no_rule_matches q) as Hno.
    { intros Hno%Hempty%Hemp. rewrite Hconf in Hno; done. }
    split_and!; try done; clear Hempty Hemp Hconf; intuition congruence.
  - assert (no_rule_matches q) as Hno by (by apply Hempty).
    split_and!; try done; clear Hempty Hemp Hconf; intuition congruence.
  - assert (~ no_rule_matches q) as Hno by (by intros ?%Hempty).
    split_and!; try done; clear Hempty Hemp Hconf; intuition congruence.
Qed.

Lemma lower_latin1_fixed (t : str) :
  forallb lower_fixed t = true -> map lower_latin1 t = t.
Proof.
  induction t as [|c t IH]; simpl; [done|].
  intros [Hc Ht]%andb_prop. rewrite IH by done. f_equal.
  unfold lower_fixed in Hc. unfold lower_latin1.
  apply andb_prop in Hc as [Hlt Hup].
  apply N.ltb_lt in Hlt.
  destruct ((65 <=? c)%N && (c <=? 90)%N) eqn:E1; [done|]. simpl.
  destruct (N.leb_spec 192 c); [lia|done].
Qed.

(** Text that lower-casing leaves alone occurs in the lower-cased string
    when it occurs in the string. *)
Lemma str_in_lower (t s : str) :
  forallb lower_fixed t = true ->
  str_in t s = true -> str_in t (str_lower s) = true.
Proof.
  intros Ht (pre & post & ->)%str_in_spec. apply str_in_spec.
  unfold str_lower. destruct (forallb is_latin1 _).
  - exists (map lower_latin1 pre), (map lower_latin1 post).
    by rewrite !List.map_app, (lower_latin1_fixed t Ht).
  - by apply unicode_lower_fixed.
Qed.

(** C5. A phrase containing "first vowel", in any mix of cases, has
    [contains_character] set to "a" by the rules, whatever letter the
    containment pattern of rule 4 extracted before; the interpreter
    returns the dict with that value unless the length bounds conflict,
    and never reports the phrase as unparsable. In "palindromic strings
    that contain the first vowel" rule 4 extracts "f", rule 5 overwrites
    it, and the result is [is_palindrome] true with [contains_character]
    "a". *)
Theorem first_vowel_overrides_containment :
  (forall phrase : str,
     str_in (py "first vowel") phrase = true \/
     str_in (py "first vowel") (str_lower phrase) = true ->
     let filters := build_filters (str_lower phrase) in
     Filters.contains_character filters = Some (py "a") /\
     (parse_natural_language_query phrase = Return filters \/
      parse_natural_language_query phrase =
        Raise (ValueError conflicting_msg) /\ bounds_conflict filters)) /\
  re_search contains_re
    (py "palindromic strings that contain the first vowel") =
    Some (mkMatch (py "f")) /\
  parse_natural_language_query
    (py "palindromic strings that contain the first vowel") =
    Return (Filters.mk (Some true) None None None (Some (py "a"))).
Proof.
  split; [|by vm_compute].
  intros phrase H filters.
  assert (str_in (py "first vowel") (str_lower phrase) = true) as Hq.
  { destruct H as [H|H]; [|done]. by apply str_in_lower. }
  assert (Filters.contains_character filters = Some (py "a")) as Ha.
  { subst filters. rewrite build_filters_fields. simpl. by rewrite Hq. }
  split; [done|].
  destruct (parse_cases phrase)
    as [[Hc ->]|[(Hnc & He & ->)|(Hnc & Hne & ->)]].
  - by right.
  - fold filters in He. by rewrite He in Ha.
  - by left.
Qed.

Lemma space_not_digit : starts_with_class is_digit (py " character") = false.
Proof. reflexivity. Qed.

(** The three patterns [lit (\d+) characters?]. *)
Lemma search_counted (a : str) (q pre ds post : str) :
  q = pre ++ a ++ ds ++ py " character" ++ post ->
  ds <> [] -> forallb is_digit ds = true ->
  (forall pre' ds' post',
     q = pre' ++ a ++ ds' ++ py " character" ++ post' ->
     ds' <> [] -> forallb is_digit ds' = true ->
     length pre <= length pre') ->
  re_search (Lit a &> Group (Plus is_digit) &> Lit (py " character") &>
             Opt (Lit (py "s"))) q = Some (mkMatch ds).
Proof.
  intros -> Hne Hds Hfirst. apply re_search_first.
  - apply match_here_run_lit; [done|apply space_not_digit|].
    by exists ds, post.
  - intros pre' inp' m' Heq
      (ds' & post' & -> & Hne' & Hds' & _)%match_here_run_lit;
      [|done|apply space_not_digit].
    by apply (Hfirst pre' ds' post').
Qed.

(** Such a pattern finds nothing exactly when the text has no occurrence. *)
Lemma search_counted_None (a : str) (q : str) :
  re_search (Lit a &> Group (Plus is_digit) &> Lit (py " character") &>
             Opt (Lit (py "s"))) q = None <->
  forall pre ds post,
    ds <> [] -> forallb is_digit ds = true ->
    q <> pre ++ a ++ ds ++ py " character" ++ post.
Proof.
  rewrite re_search_None. split.
  - intros Hno pre ds post Hne Hds ->.
    specialize (Hno pre _ eq_refl).
    assert (match_here
              (Lit a &> Group (Plus is_digit) &> Lit (py " character") &>
               Opt (Lit (py "s")))
              (a ++ ds ++ py " character" ++ post) = Some (mkMatch ds)) as Hm.
    { apply match_here_run_lit; [done|apply space_not_digit|].
      by exists ds, post. }
    by rewrite Hno in Hm.
  - intros Hno pre inp ->.
    destruct (match_here _ inp) as [m|] eqn:E; [|done].
    apply match_here_run_lit in E as (ds & post & -> & Hne & Hds & _);
      [|done|apply space_not_digit].
    by destruct (Hno pre ds post).
Qed.

(** The two patterns [lit (\d+)]: group 1 is the whole number. *)
Lemma search_number (a : str) (q pre ds rest : str) :
  q = pre ++ a ++ ds ++ rest ->
  ds <> [] -> forallb is_digit ds = true ->
  starts_with_class is_digit rest = false ->
  (forall pre' c rest',
     q = pre' ++ a ++ c :: rest' -> is_digit c = true ->
     length pre <= length pre') ->
  re_search (Lit a &> Group (Plus is_digit)) q = Some (mkMatch ds).
Proof.
  intros -> Hne Hds Hrest Hfirst. apply re_search_first.
  - apply match_here_run. by exists ds, rest.
  - intros pre' inp' m' Heq
      (ds' & rest' & -> & Hne' & Hds' & _)%match_here_run.
    destruct ds' as [|c ds']; [done|].
    simpl in Hds'. apply andb_prop in Hds' as [Hc _].
    by apply (Hfirst pre' c (ds' ++ rest')).
Qed.

(** C3, as amended. When the leftmost "exactly N character" of the
    lower-cased phrase (N a run of decimal digits) carries the number N,
    the rules leave [min_length = N] and [max_length = N], whatever
    "longer than", "shorter than", "at least" and "at most" wrote before,
    and the interpreter returns that dict. "exactly 7 characters" yields
    both bounds 7, also after other length rules have written theirs. *)
Theorem exactly_sets_both_bounds :
  (forall phrase pre ds post : str,
     str_lower phrase =
       pre ++ py "exactly " ++ ds ++ py " character" ++ post ->
     ds <> [] -> forallb is_digit ds = true ->
     (forall pre' ds' post',
        str_lower phrase =
          pre' ++ py "exactly " ++ ds' ++ py " character" ++ post' ->
        ds' <> [] -> forallb is_digit ds' = true ->
        length pre <= length pre') ->
     let filters := build_filters (str_lower phrase) in
     Filters.min_length filters = Some (int ds) /\
     Filters.max_length filters = Some (int ds) /\
     parse_natural_language_query phrase = Return filters) /\
  parse_natural_language_query (py "exactly 7 characters") =
    Return (Filters.mk None (Some 7%Z) (Some 7%Z) None None) /\
  parse_natural_language_query
    (py "exactly 7 characters, longer than 20, at most 3 characters") =
    Return (Filters.mk None (Some 7%Z) (Some 7%Z) None None).
Proof.
  split; [|by vm_compute].
  intros phrase pre ds post Hq Hne Hds Hfirst. cbv zeta.
  pose proof (search_counted (py "exactly ") _ pre ds post Hq Hne Hds Hfirst)
    as Hsearch.
  fold exactly_re in Hsearch.
  assert (Filters.min_length (build_filters (str_lower phrase)) =
            Some (int ds) /\
          Filters.max_length (build_filters (str_lower phrase)) =
            Some (int ds)) as [Hmin Hmax].
  { rewrite build_filters_fields. simpl. by rewrite Hsearch. }
  split; [done|]. split; [done|].
  destruct (parse_cases phrase)
    as [[Hc _]|[(_ & He & _)|(_ & _ & ->)]].
  - destruct Hc as (mn & mx & ? & ? & ?). simplify_eq. lia.
  - by rewrite He in Hmin.
  - done.
Qed.

(** C4, as amended. When the leftmost "longer than N" of the lower-cased
    phrase carries the number N (all of its digits) and neither the
    "at least" nor the "exactly" rule applies, the rules leave
    [min_length = N + 1], and a dict the interpreter returns has it; when
    the leftmost "shorter than N" carries N and neither the "at most" nor
    the "exactly" rule applies, they leave [max_length = N - 1]. The
    bounds are strict: "strings longer than 10 characters" yields
    [min_length] 11 alone, "strings shorter than 5 characters"
    [max_length] 4 alone. *)
Theorem longer_shorter_strict_bounds :
  (forall phrase pre ds rest : str,
     str_lower phrase = pre ++ py "longer than " ++ ds ++ rest ->
     ds <> [] -> forallb is_digit ds = true ->
     starts_with_class is_digit rest = false ->
     (forall pre' c rest',
        str_lower phrase = pre' ++ py "longer than " ++ c :: rest' ->
        is_digit c = true -> length pre <= length pre') ->
     re_search at_least_re (str_lower phrase) = None ->
     re_search exactly_re (str_lower phrase) = None ->
     Filters.min_length (build_filters (str_lower phrase)) =
       Some (int ds + 1)%Z /\
     (forall filters, parse_natural_language_query phrase = Return filters ->
        Filters.min_length filters = Some (int ds + 1)%Z)) /\
  (forall phrase pre ds rest : str,
     str_lower phrase = pre ++ py "shorter than " ++ ds ++ rest ->
     ds <> [] -> forallb is_digit ds = true ->
     starts_with_class is_digit rest = false ->
     (forall pre' c rest',
        str_lower phrase = pre' ++ py "shorter than " ++ c :: rest' ->
        is_digit c = true -> length pre <= length pre') ->
     re_search at_most_re (str_lower phrase) = None ->
     re_search exactly_re (str_lower phrase) = None ->
     Filters.max_length (build_filters (str_lower phrase)) =
       Some (int ds - 1)%Z /\
     (forall filters, parse_natural_language_query phrase = Return filters ->
        Filters.max_length filters = Some (int ds - 1)%Z)) /\
  parse_natural_language_query (py "strings longer than 10 characters") =
    Return (Filters.mk None (Some 11%Z) None None None) /\
  parse_natural_language_query (py "strings shorter than 5 characters") =
    Return (Filters.mk None None (Some 4%Z) None None).
Proof.
  split; [|split; [|by vm_compute]].
  - intros phrase pre ds rest Hq Hne Hds Hrest Hfirst Hleast Hexactly.
    pose proof (search_number (py "longer than ") _ pre ds rest
                  Hq Hne Hds Hrest Hfirst) as Hsearch.
    fold longer_re in Hsearch.
    assert (Filters.min_length (build_filters (str_lower phrase)) =
            Some (int ds + 1)%Z) as Hmin.
    { rewrite build_filters_fields. simpl.
      by rewrite Hexactly, Hleast, Hsearch. }
    split; [done|]. intros filters Hret.
    destruct (parse_cases phrase)
      as [[_ Hp]|[(_ & _ & Hp)|(_ & _ & Hp)]];
      rewrite Hp in Hret; by simplify_eq.
  - intros phrase pre ds rest Hq Hne Hds Hrest Hfirst Hmost Hexactly.
    pose proof (search_number (py "shorter than ") _ pre ds rest
                  Hq Hne Hds Hrest Hfirst) as Hsearch.
    fold shorter_re in Hsearch.
    assert (Filters.max_length (build_filters (str_lower phrase)) =
            Some (int ds - 1)%Z) as Hmax.
    { rewrite build_filters_fields. simpl.
      by rewrite Hexactly, Hmost, Hsearch. }
    split; [done|]. intros filters Hret.
    destruct (parse_cases phrase)
      as [[_ Hp]|[(_ & _ & Hp)|(_ & _ & Hp)]];
      rewrite Hp in Hret; by simplify_eq.
Qed.

Lemma az_not_quote (c : N) : is_az c = true -> is_quote c = false.
Proof.
  unfold is_az, is_quote. intros [H1 H2]%andb_prop.
  apply N.leb_le in H1. apply orb_false_intro; apply N.eqb_neq; lia.
Qed.

(** A match of the containment pattern starts with "contain", "contains"
    or "containing" and a space. *)
Lemma match_here_contains_inv (inp : str) (m : Match) :
  match_here contains_re inp = Some m ->
  exists suf post, inp = py "contain" ++ suf ++ py " " ++ post /\
                   suf ∈ contain_suffixes.
Proof.
  unfold match_here, contains_re, contain_suffixes.
  rewrite rmatch_seq. intros (r1 & -> & H)%rmatch_lit_inv.
  rewrite rmatch_seq in H.
  apply rmatch_opt_inv in H as [[H|H]%rmatch_alt_inv|H].
  - apply rmatch_lit_inv in H as (r2 & -> & H).
    rewrite rmatch_seq in H. apply rmatch_lit_inv in H as (post & -> & _).
    exists (py "s"), post. split; [done|]. apply list_elem_of_In. simpl. tauto.
  - apply rmatch_lit_inv in H as (r2 & -> & H).
    rewrite rmatch_seq in H. apply rmatch_lit_inv in H as (post & -> & _).
    exists (py "ing"), post. split; [done|].
    apply list_elem_of_In. simpl. tauto.
  - rewrite rmatch_seq in H. apply rmatch_lit_inv in H as (post & -> & _).
    exists [], post. split; [done|]. apply list_elem_of_In. simpl. tauto.
Qed.

(** What follows "contain(s|ing)": a space and a word that is none of the
    optional words of the pattern; group 1 is the word's first letter. *)
Lemma contains_tail_plain (c : N) (rest : str) :
  is_az c = true ->
  strip_prefix (py "the ") (c :: rest) = None ->
  strip_prefix (py "letter ") (c :: rest) = None ->
  strip_prefix (py "character ") (c :: rest) = None ->
  rmatch (Lit (py " ") &> Opt (Lit (py "the ")) &>
          Opt (Alt (Lit (py "letter ")) (Lit (py "character "))) &>
          Opt (Class is_quote) &> Group (Class is_az) &>
          Opt (Class is_quote))
    (py " " ++ c :: rest) None
    (fun _ cap => Some (mkMatch (default [] cap))) = Some (mkMatch [c]).
Proof.
  intros Haz Hthe Hletter Hchar.
  rewrite rmatch_seq, rmatch_lit_app.
  rewrite rmatch_seq, rmatch_opt_skipped by by apply rmatch_lit_mismatch.
  rewrite rmatch_seq, rmatch_opt_skipped.
  2:{ rewrite rmatch_alt_second; by apply rmatch_lit_mismatch. }
  rewrite rmatch_seq, rmatch_opt_skipped
    by by apply rmatch_class_reject, az_not_quote.
  rewrite rmatch_seq, rmatch_group, rmatch_class_accept by done.
  replace (length (c :: rest) - length rest) with 1 by (simpl; lia).
  simpl. destruct rest as [|c' rest]; [done|]. by destruct (is_quote c').
Qed.

Lemma match_here_contains_plain (suf : str) (c : N) (rest : str) :
  suf ∈ contain_suffixes -> is_az c = true ->
  strip_prefix (py "the ") (c :: rest) = None ->
  strip_prefix (py "letter ") (c :: rest) = None ->
  strip_prefix (py "character ") (c :: rest) = None ->
  match_here contains_re (py "contain" ++ suf ++ py " " ++ c :: rest) =
    Some (mkMatch [c]).
Proof.
  intros Hsuf Haz Hthe Hletter Hchar.
  pose proof (contains_tail_plain c rest Haz Hthe Hletter Hchar) as Htail.
  unfold match_here, contains_re.
  rewrite rmatch_seq, rmatch_lit_app, rmatch_seq.
  unfold contain_suffixes in Hsuf.
  apply list_elem_of_In in Hsuf. simpl in Hsuf.
  destruct Hsuf as [<-|[<-|[<-|[]]]].
  - rewrite rmatch_opt_skipped; [done|].
    rewrite rmatch_alt_second; by apply rmatch_lit_mismatch.
  - apply rmatch_opt_taken, rmatch_alt_first.
    by rewrite rmatch_lit_app.
  - apply rmatch_opt_taken. rewrite rmatch_alt_second
      by by apply rmatch_lit_mismatch.
    by rewrite rmatch_lit_app.
Qed.

(** C10, as amended. Take the first place of the lower-cased phrase where
    "contain", "contains" or "containing" is followed by a space. When a
    word beginning with a lowercase ASCII letter follows, the text there
    does not start with one of the words the pattern may skip ("the ",
    "letter ", "character "), and the phrase has no "first vowel", the
    rules set [contains_character] to that word's first letter, with no
    "letter" marker or quoting needed; the interpreter returns the dict
    unless the length bounds conflict. "strings containing multiple
    words" yields "m"; in "strings containing the letter z" the words
    "the" and "letter" are skipped and the result is "z". *)
Theorem containment_takes_first_letter :
  (forall (phrase pre suf : str) (c : N) (rest : str),
     str_lower phrase = pre ++ py "contain" ++ suf ++ py " " ++ c :: rest ->
     suf ∈ contain_suffixes -> is_az c = true ->
     (forall pre' suf' post',
        str_lower phrase = pre' ++ py "contain" ++ suf' ++ py " " ++ post' ->
        suf' ∈ contain_suffixes -> length pre <= length pre') ->
     strip_prefix (py "the ") (c :: rest) = None ->
     strip_prefix (py "letter ") (c :: rest) = None ->
     strip_prefix (py "character ") (c :: rest) = None ->
     str_in (py "first vowel") (str_lower phrase) = false ->
     let filters := build_filters (str_lower phrase) in
     Filters.contains_character filters = Some [c] /\
     (parse_natural_language_query phrase = Return filters \/
      parse_natural_language_query phrase =
        Raise (ValueError conflicting_msg) /\ bounds_conflict filters)) /\
  parse_natural_language_query (py "strings containing multiple words") =
    Return (Filters.mk None None None None (Some (py "m"))) /\
  parse_natural_language_query (py "strings containing the letter z") =
    Return (Filters.mk None None None None (Some (py "z"))).
Proof.
  split; [|by vm_compute].
  intros phrase pre suf c rest Hq Hsuf Haz Hfirst Hthe Hletter Hchar Hvowel.
  cbv zeta.
  assert (re_search contains_re (str_lower phrase) = Some (mkMatch [c]))
    as Hsearch.
  { rewrite Hq. apply re_search_first.
    - by apply match_here_contains_plain.
    - intros pre' inp' m' Heq
        (suf' & post' & -> & Hsuf')%match_here_contains_inv.
      apply (Hfirst pre' suf' post'); [|done]. by rewrite Hq. }
  assert (Filters.contains_character (build_filters (str_lower phrase)) =
          Some [c]) as Hc.
  { rewrite build_filters_fields. simpl. by rewrite Hvowel, Hsearch. }
  split; [done|].
  destruct (parse_cases phrase)
    as [[Hconf ->]|[(_ & He & _)|(_ & _ & ->)]].
  - by right.
  - by rewrite He in Hc.
  - by left.
Qed.
End Interpreter.

(** * Further properties *)

(** ** The store: lookup, deletion, keys *)

Section DictDeleteFacts.
Context {V : Type}.
Implicit Types (d : dict V) (k : str) (v : V).

Lemma dict_get_None_keys k d : dict_get k d = None <-> k ∉ dict_keys d.
Proof.
  unfold dict_keys. induction d as [|[k' v'] d IH]; simpl.
  - split; [intros _; apply not_elem_of_nil|done].
  - rewrite not_elem_of_cons. destruct (decide (k = k')) as [->|Hne].
    + split; [done|]. by intros [? _].
    + rewrite IH. tauto.
Qed.

Lemma dict_get_Some_elem k v d : dict_get k d = Some v -> (k, v) ∈ d.
Proof.
  induction d as [|[k' v'] d IH]; simpl; [done|].
  destruct (decide (k = k')) as [->|Hne].
  - intros [= ->]. left.
  - intros H. right. by apply IH.
Qed.

Lemma dict_keys_app d1 d2 : dict_keys (d1 ++ d2) = dict_keys d1 ++ dict_keys d2.
Proof. unfold dict_keys. apply map_app. Qed.

Lemma dict_delitem_sublist k d : sublist (dict_delitem k d) d.
Proof.
  induction d as [|[k' v'] d IH]; simpl; [constructor|].
  destruct (decide (k = k')); by constructor.
Qed.

Lemma dict_keys_delitem_sublist k d :
  sublist (dict_keys (dict_delitem k d)) (dict_keys d).
Proof.
  unfold dict_keys. induction d as [|[k' v'] d IH]; simpl; [constructor|].
  destruct (decide (k = k')); by constructor.
Qed.

Lemma dict_get_delitem_ne k k' d :
  k' <> k -> dict_get k' (dict_delitem k d) = dict_get k' d.
Proof.
  intros Hne. induction d as [|[k0 v0] d IH]; simpl; [done|].
  destruct (decide (k = k0)) as [->|Hne0]; simpl.
  - by rewrite decide_False.
  - by rewrite IH.
Qed.

Lemma dict_get_delitem k d :
  NoDup (dict_keys d) -> dict_get k (dict_delitem k d) = None.
Proof.
  induction d as [|[k0 v0] d IH]; simpl; [done|].
  intros [Hnin Hnd]%NoDup_cons.
  destruct (decide (k = k0)) as [->|Hne]; simpl.
  - by apply dict_get_None_keys.
  - rewrite decide_False by done. by apply IH.
Qed.

Lemma dict_delitem_length k d :
  is_Some (dict_get k d) -> length d = S (length (dict_delitem k d)).
Proof.
  induction d as [|[k0 v0] d IH]; simpl; [by intros [? ?]|].
  destruct (decide (k = k0)) as [->|Hne]; simpl; [done|].
  intros H. by rewrite <-IH.
Qed.

(** Deleting the key bound last gives back the dict before the binding. *)
Lemma dict_delitem_last k v d :
  dict_get k d = None -> dict_delitem k (d ++ [(k, v)]) = d.
Proof.
  induction d as [|[k0 v0] d IH]; simpl.
  - by rewrite decide_True.
  - destruct (decide (k = k0)) as [->|Hne]; [done|].
    intros H. by rewrite IH.
Qed.

Lemma dict_delitem_absent k d : dict_get k d = None -> dict_delitem k d = d.
Proof.
  induction d as [|[k0 v0] d IH]; simpl; [done|].
  destruct (decide (k = k0)) as [->|Hne]; [done|].
  intros H. by rewrite IH.
Qed.
End DictDeleteFacts.

Section StoreFacts.
Context `{rt : Runtime}.

Lemma create_string_cases (utcnow value : str) (string_store : store) :
  let h := sha256_hexdigest value in
  (is_Some (dict_get h string_store) /\
   create_string utcnow value string_store =
     (string_store, Raise duplicate_error)) \/
  (dict_get h string_store = None /\
   create_string utcnow value string_store =
     (string_store ++
        [(h, StringData.mk h value (analyze_string value) (utcnow ++ py "Z"))],
      Return (StringData.mk h value (analyze_string value)
                (utcnow ++ py "Z")))).
Proof.
  intros h. unfold create_string. simpl. fold h.
  unfold dict_contains. destruct (dict_get h string_store) eqn:E.
  - left. split; [by eexists|done].
  - right. split; [done|]. by rewrite dict_setitem_new.
Qed.

Lemma delete_string_cases (string_value : str) (string_store : store) :
  let h := sha256_hexdigest string_value in
  (dict_get h string_store = None /\
   delete_string string_value string_store =
     (string_store, Raise not_found_error)) \/
  (is_Some (dict_get h string_store) /\
   delete_string string_value string_store =
     (dict_delitem h string_store, Return ())).
Proof.
  intros h. unfold delete_string. fold h.
  unfold dict_contains. destruct (dict_get h string_store) eqn:E; simpl.
  - right. split; [by eexists|done].
  - by left.
Qed.

Lemma store_ok_nil : store_ok [].
Proof. split; [constructor|constructor]. Qed.

Lemma store_ok_create (utcnow value : str) (string_store : store) :
  store_ok string_store ->
  store_ok (fst (create_string utcnow value string_store)).
Proof.
  intros [Hnd Hall].
  destruct (create_string_cases utcnow value string_store)
    as [[_ ->]|[Hnew ->]]; simpl; [done|].
  split.
  - rewrite dict_keys_app. simpl. apply NoDup_app. split; [done|].
    split; [|apply NoDup_singleton].
    intros k Hk ->%list_elem_of_singleton.
    by apply dict_get_None_keys in Hnew.
  - apply Forall_app. split; [done|]. by repeat constructor.
Qed.

Lemma store_ok_delete (string_value : str) (string_store : store) :
  store_ok string_store ->
  store_ok (fst (delete_string string_value string_store)).
Proof.
  intros [Hnd Hall].
  destruct (delete_string_cases string_value string_store)
    as [[_ ->]|[_ ->]]; simpl; [done|].
  split.
  - apply (sublist_NoDup _ (dict_keys string_store)); [done|].
    apply dict_keys_delitem_sublist.
  - apply Forall_forall. intros kv Hin.
    rewrite Forall_forall in Hall. apply Hall.
    eapply elem_of_sublist; [done|apply dict_delitem_sublist].
Qed.

Lemma store_ok_serve (string_store : store) (r : request) :
  store_ok string_store -> store_ok (serve string_store r).
Proof.
  destruct r; simpl; [apply store_ok_create|done|apply store_ok_delete].
Qed.

Lemma store_ok_serve_all (requests : list request) :
  store_ok (serve_all requests).
Proof.
  unfold serve_all. generalize store_ok_nil.
  generalize (@nil (str * StringData.t)).
  induction requests as [|r rs IH]; intros s Hs; simpl; [done|].
  apply IH. by apply store_ok_serve.
Qed.
End StoreFacts.

Section StoreProperties.
Context `{rt : Runtime}.

(** X1. After [create_string] the value can be retrieved: [get_string]
    returns the record just created, or, when the creation was refused as a
    duplicate, the record stored before, the store being the same. Values
    with another digest are retrieved, or not found, as before. *)
Theorem created_string_is_retrievable :
  forall (utcnow value : str) (string_store : store),
    let string_store' := fst (create_string utcnow value string_store) in
    (forall record,
       snd (create_string utcnow value string_store) = Return record ->
       get_string value string_store' = Return record) /\
    (forall old,
       dict_get (sha256_hexdigest value) string_store = Some old ->
       string_store' = string_store /\
       get_string value string_store' = Return old) /\
    (exists record, get_string value string_store' = Return record) /\
    (forall other,
       sha256_hexdigest other <> sha256_hexdigest value ->
       get_string other string_store' = get_string other string_store).
Proof.
  intros utcnow value string_store. cbv zeta. unfold get_string.
  destruct (create_string_cases utcnow value string_store)
    as [[[old Hold] ->]|[Hnew ->]]; simpl.
  - rewrite Hold. split_and!; try done.
    + intros old' [= <-]. done.
    + by exists old.
  - set (h := sha256_hexdigest value) in *.
    set (record := StringData.mk h value (analyze_string value) _).
    assert (dict_get h (string_store ++ [(h, record)]) = Some record) as Hget.
    { rewrite <-(dict_setitem_new h record string_store Hnew).
      apply dict_get_setitem. }
    rewrite Hget. split_and!.
    + by intros ? [= <-].
    + intros old Hold. by rewrite Hold in Hnew.
    + by exists record.
    + intros other Hne.
      rewrite <-(dict_setitem_new h record string_store Hnew).
      by rewrite dict_get_setitem_ne.
Qed.

(** X2. [delete_string] on a value whose digest is not a key raises the 404
    error and leaves the store as it is. On a stored value it returns
    normally, the key is gone, every other key keeps its record, the
    remaining records keep their order, one record less is stored, and from
    then on retrieving or deleting the value raises the 404 error. *)
Theorem delete_string_removes_one_binding :
  forall (string_value : str) (string_store : store),
    NoDup (dict_keys string_store) ->
    let h := sha256_hexdigest string_value in
    (dict_contains h string_store = false ->
     delete_string string_value string_store =
       (string_store, Raise not_found_error)) /\
    (dict_contains h string_store = true ->
     let string_store' := dict_delitem h string_store in
     delete_string string_value string_store = (string_store', Return ()) /\
     dict_get h string_store' = None /\
     (forall k, k <> h -> dict_get k string_store' = dict_get k string_store) /\
     sublist (dict_values string_store') (dict_values string_store) /\
     len string_store = (len string_store' + 1)%Z /\
     get_string string_value string_store' = Raise not_found_error /\
     delete_string string_value string_store' =
       (string_store', Raise not_found_error)).
Proof.
  intros string_value string_store Hnd h. split.
  - intros Hc. unfold delete_string. fold h. by rewrite Hc.
  - intros Hc string_store'.
    assert (dict_get h string_store' = None) as Hgone
      by by apply dict_get_delitem.
    split_and!.
    + unfold delete_string. fold h. by rewrite Hc.
    + done.
    + intros k Hk. by apply dict_get_delitem_ne.
    + unfold dict_values, string_store'.
      clear. induction string_store as [|[k0 v0] d IH]; simpl; [constructor|].
      destruct (decide (h = k0)); by constructor.
    + unfold len. apply dict_contains_true in Hc.
      rewrite (dict_delitem_length h string_store Hc). fold string_store'. lia.
    + unfold get_string. fold h. by rewrite Hgone.
    + unfold delete_string. fold h. unfold dict_contains. by rewrite Hgone.
Qed.

(** X3. Creating a new value and deleting it again gives back the store
    exactly as it was. Deleting a stored value and creating it again
    succeeds: the value gets a new record, placed after all the others. *)
Theorem create_delete_round_trip :
  forall (utcnow value : str) (string_store : store),
    let h := sha256_hexdigest value in
    (dict_contains h string_store = false ->
     delete_string value (fst (create_string utcnow value string_store)) =
       (string_store, Return ())) /\
    (dict_contains h string_store = true ->
     NoDup (dict_keys string_store) ->
     let record :=
       StringData.mk h value (analyze_string value) (utcnow ++ py "Z") in
     create_string utcnow value (fst (delete_string value string_store)) =
       (dict_delitem h string_store ++ [(h, record)], Return record)).
Proof.
  intros utcnow value string_store h. subst h. split.
  - intros Hnew%dict_contains_false.
    destruct (create_string_cases utcnow value string_store)
      as [[[old Hold] _]|[_ ->]]; [by rewrite Hold in Hnew|].
    simpl. set (h := sha256_hexdigest value) in *.
    set (record := StringData.mk h value _ _).
    unfold delete_string. fold h.
    assert (dict_get h (string_store ++ [(h, record)]) = Some record) as Hget.
    { rewrite <-(dict_setitem_new h record string_store Hnew).
      apply dict_get_setitem. }
    unfold dict_contains. rewrite Hget. simpl.
    by rewrite dict_delitem_last.
  - intros Hc Hnd record.
    unfold delete_string. rewrite Hc. simpl.
    destruct (create_string_cases utcnow value
                (dict_delitem (sha256_hexdigest value) string_store))
      as [[[old Hold] _]|[_ ->]]; [|done].
    by rewrite dict_get_delitem in Hold.
Qed.

(** X4. Whatever requests have been served since the store was empty, no
    key is bound twice, every record is bound to its own id, the id is the
    digest of the record's value, and the stored properties are the
    properties of that value; so a record [get_string] returns for a value
    carries the digest of that value as its id and the properties of the
    string it holds. *)
Theorem served_store_is_consistent :
  forall (requests : list request),
    let string_store := serve_all requests in
    store_ok string_store /\
    (forall string_value record,
       get_string string_value string_store = Return record ->
       StringData.id record = sha256_hexdigest string_value /\
       StringData.id record = sha256_hexdigest (StringData.value record) /\
       StringData.properties record =
         analyze_string (StringData.value record)).
Proof.
  intros requests string_store.
  pose proof (store_ok_serve_all requests) as Hok. fold string_store in Hok.
  split; [done|]. intros string_value record. unfold get_string.
  destruct (dict_get _ string_store) as [r|] eqn:E; [|done].
  intros [= ->]. apply dict_get_Some_elem in E.
  destruct Hok as [_ Hall]. rewrite Forall_forall in Hall.
  destruct (Hall _ E) as (Hk & Hid & Hp). simpl in *.
  split_and!; congruence.
Qed.

(** X5. The count [health_check] reports rises by one with a creation that
    succeeds, falls by one with a deletion that succeeds, and stays with a
    refused creation, a failed deletion and a retrieval; it is 0 on the
    empty store and never negative. *)
Theorem health_check_counts_stored_strings :
  forall (string_store : store) (r : request),
    snd (health_check (serve string_store r)) =
      (snd (health_check string_store) +
       match r with
       | POST_strings _ value =>
           if dict_contains (sha256_hexdigest value) string_store
           then 0 else 1
       | GET_string _ => 0
       | DELETE_string string_value =>
           if dict_contains (sha256_hexdigest string_value) string_store
           then -1 else 0
       end)%Z /\
    (0 <= snd (health_check (serve string_store r)))%Z /\
    snd (health_check []) = 0%Z.
Proof.
  intros string_store r.
  split; [|split; [unfold health_check, len; simpl; lia|done]].
  unfold health_check, len. simpl. destruct r as [utcnow value|v|v]; simpl.
  - destruct (create_string_cases utcnow value string_store)
      as [[Hold ->]|[Hnew ->]]; simpl.
    + apply dict_contains_true in Hold. rewrite Hold. lia.
    + apply dict_contains_false in Hnew. rewrite Hnew.
      rewrite length_app. simpl. lia.
  - lia.
  - destruct (delete_string_cases v string_store)
      as [[Hno ->]|[Hold ->]]; simpl.
    + apply dict_contains_false in Hno. rewrite Hno. lia.
    + rewrite (dict_delitem_length _ _ Hold).
      apply dict_contains_true in Hold. rewrite Hold. lia.
Qed.

(** X6. Two values with different digests, neither stored yet, are both
    created, and the store enumerates them after the earlier records in the
    order of their creation; listing without filters returns them all, in
    that order, with the matching count. *)
Theorem creations_are_listed_in_order :
  forall (t1 v1 t2 v2 : str) (string_store : store),
    dict_contains (sha256_hexdigest v1) string_store = false ->
    dict_contains (sha256_hexdigest v2) string_store = false ->
    sha256_hexdigest v1 <> sha256_hexdigest v2 ->
    let r1 := StringData.mk (sha256_hexdigest v1) v1 (analyze_string v1)
                (t1 ++ py "Z") in
    let r2 := StringData.mk (sha256_hexdigest v2) v2 (analyze_string v2)
                (t2 ++ py "Z") in
    let s1 := fst (create_string t1 v1 string_store) in
    create_string t1 v1 string_store =
      (string_store ++ [(sha256_hexdigest v1, r1)], Return r1) /\
    create_string t2 v2 s1 =
      (string_store ++ [(sha256_hexdigest v1, r1); (sha256_hexdigest v2, r2)],
       Return r2) /\
    list_strings_with_filters (fst (create_string t2 v2 s1))
      None None None None None =
      Return (FilteredResponse.mk (dict_values string_store ++ [r1; r2])
                (len string_store + 2) Filters.empty).
Proof.
  intros t1 v1 t2 v2 string_store H1%dict_contains_false
    H2%dict_contains_false Hne r1 r2 s1.
  assert (create_string t1 v1 string_store =
          (string_store ++ [(sha256_hexdigest v1, r1)], Return r1)) as E1.
  { destruct (create_string_cases t1 v1 string_store)
      as [[[old Hold] _]|[_ ->]]; [by rewrite Hold in H1|done]. }
  assert (create_string t2 v2 s1 =
          (string_store ++
             [(sha256_hexdigest v1, r1); (sha256_hexdigest v2, r2)],
           Return r2)) as E2.
  { subst s1. rewrite E1. simpl.
    destruct (create_string_cases t2 v2
                (string_store ++ [(sha256_hexdigest v1, r1)]))
      as [[[old Hold] _]|[_ ->]].
    - rewrite <-(dict_setitem_new _ r1 string_store H1) in Hold.
      rewrite dict_get_setitem_ne in Hold by done. by rewrite Hold in H2.
    - by rewrite <-app_assoc. }
  split; [done|]. split; [done|].
  rewrite E2. simpl. unfold list_strings_with_filters. simpl.
  unfold apply_filters. simpl. unfold dict_values.
  rewrite map_app. simpl. do 2 f_equal.
  unfold len. rewrite List.length_app, List.length_map. simpl. lia.
Qed.
End StoreProperties.

(** ** The two listing endpoints *)

Section ListingProperties.
Context `{rt : Runtime}.

Lemma filter_length_le {X} (f : X -> bool) (l : list X) :
  (len (List.filter f l) <= len l)%Z.
Proof.
  unfold len. pose proof (sublist_length _ _ (filter_sublist f l)). lia.
Qed.

(** X7. [GET /strings] raises its 400 error exactly when both bounds are
    given with [min_length > max_length]. In every other case it returns
    the stored records that pass every given predicate, in the order the
    store enumerates them, their number as [count] (never more than the
    store holds), and the parameters as [filters_applied]; equal bounds are
    accepted. *)
Theorem list_strings_outcomes :
  forall (string_store : store) (is_palindrome : option bool)
         (min_length max_length word_count : option Z)
         (contains_character : option str),
    let filters :=
      Filters.mk is_palindrome min_length max_length word_count
        contains_character in
    let data := List.filter (passes filters) (dict_values string_store) in
    (bounds_conflict filters ->
     list_strings_with_filters string_store is_palindrome min_length
       max_length word_count contains_character =
     Raise (HTTPException HTTP_400_BAD_REQUEST
              (py "min_length cannot be greater than max_length"))) /\
    (~ bounds_conflict filters ->
     list_strings_with_filters string_store is_palindrome min_length
       max_length word_count contains_character =
     Return (FilteredResponse.mk data (len data) filters)) /\
    sublist data (dict_values string_store) /\
    (len data <= len string_store)%Z.
Proof.
  intros string_store ip mn mx wc cc filters data.
  unfold list_strings_with_filters, bounds_conflict. simpl.
  split_and!.
  - intros (a & b & -> & -> & Hgt).
    destruct (Z.gtb_spec a b); [done|lia].
  - intros Hnc. fold filters. rewrite apply_filters_filter. fold data.
    destruct mn as [a|], mx as [b|]; try done.
    destruct (Z.gtb_spec a b); [|done].
    destruct Hnc. exists a, b. split_and!; [done..|lia].
  - apply filter_sublist.
  - subst data. etransitivity; [apply filter_length_le|].
    unfold len, dict_values. rewrite List.length_map. lia.
Qed.

(** X8. When the interpreter returns a filter dict for the query, the
    natural-language endpoint returns the stored records passing that dict,
    in store order, their count, the query as it was sent and the dict; and
    [GET /strings] called with the entries of that dict as parameters
    returns the same records and count. *)
Theorem natural_language_agrees_with_structured :
  forall (string_store : store) (query : str) (filters : Filters.t),
    parse_natural_language_query query = Return filters ->
    let data := List.filter (passes filters) (dict_values string_store) in
    filter_by_natural_language string_store query =
      Return (NaturalLanguageResponse.mk data (len data)
                (InterpretedQuery.mk query filters)) /\
    list_strings_with_filters string_store
      (Filters.is_palindrome filters) (Filters.min_length filters)
      (Filters.max_length filters) (Filters.word_count filters)
      (Filters.contains_character filters) =
      Return (FilteredResponse.mk data (len data) filters).
Proof.
  intros string_store query filters Hparse data.
  split.
  - unfold filter_by_natural_language. rewrite Hparse.
    by rewrite apply_filters_filter.
  - destruct (parse_cases query)
      as [[_ Hp]|[(_ & _ & Hp)|(Hnc & _ & Hp)]];
      rewrite Hp in Hparse; try done.
    injection Hparse as <-.
    set (filters := build_filters (str_lower query)) in *.
    unfold list_strings_with_filters, bounds_conflict in *.
    destruct filters as [ip mn mx wc cc] eqn:Ef. simpl in *.
    rewrite apply_filters_filter.
    destruct mn as [a|], mx as [b|]; try done.
    destruct (Z.gtb_spec a b); [|done].
    destruct Hnc. exists a, b. split_and!; [done..|lia].
Qed.

Lemma passes_value_passes (filters : Filters.t) (r : StringData.t) :
  StringData.properties r = analyze_string (StringData.value r) ->
  passes filters r = value_passes filters (StringData.value r).
Proof. intros Hp. unfold passes, value_passes. by rewrite Hp. Qed.

(** X9. On a store reached by serving requests from the empty store, the
    filter engine selects by the strings themselves: a record passes
    exactly when its value, read afresh, is a palindrome or not as asked,
    has a length within the bounds, splits into the asked number of words
    and contains the asked text. *)
Theorem served_records_filtered_by_value :
  forall (requests : list request) (filters : Filters.t),
    apply_filters (dict_values (serve_all requests)) filters =
    List.filter (fun r => value_passes filters (StringData.value r))
      (dict_values (serve_all requests)).
Proof.
  intros requests filters. rewrite apply_filters_filter.
  apply List.filter_ext_in. intros r Hin.
  apply passes_value_passes.
  destruct (store_ok_serve_all requests) as [_ Hall].
  rewrite Forall_forall in Hall.
  unfold dict_values in Hin.
  apply List.in_map_iff in Hin as ([k r'] & <- & Hin).
  apply list_elem_of_In in Hin. by destruct (Hall _ Hin) as (_ & _ & ?).
Qed.

(** X10. Filtering twice by the same dict changes nothing more; filtering
    by two dicts gives the same records whichever goes first; a dict whose
    [min_length] exceeds its [max_length] lets no record through; the
    result is never longer than the input. *)
Theorem apply_filters_composes :
  forall (strings : list StringData.t) (f g : Filters.t),
    apply_filters (apply_filters strings f) f = apply_filters strings f /\
    apply_filters (apply_filters strings f) g =
      apply_filters (apply_filters strings g) f /\
    (bounds_conflict f -> apply_filters strings f = []) /\
    (len (apply_filters strings f) <= len strings)%Z.
Proof.
  intros strings f g. rewrite !apply_filters_filter, !filter_twice.
  split_and!.
  - apply List.filter_ext. intros s. by destruct (passes f s).
  - apply List.filter_ext. intros s. apply andb_comm.
  - intros (a & b & Ha & Hb & Hgt).
    rewrite <-(List.filter_false strings). apply List.filter_ext. intros s.
    unfold passes. rewrite Ha, Hb. simpl.
    destruct (Z.leb_spec a (StringProperties.length (StringData.properties s))),
             (Z.leb_spec (StringProperties.length (StringData.properties s)) b);
      rewrite ?andb_false_r; simpl; try done. lia.
  - apply filter_length_le.
Qed.
End ListingProperties.

(** ** More on the phrase interpreter *)

(** A pattern without a group hands the group it was given on to what
    follows. *)
Lemma rmatch_group_free {A} (r : regex) :
  group_free r = true ->
  forall inp cap (k : @cont A) x,
    rmatch r inp cap k = Some x -> exists rest, k rest cap = Some x.
Proof.
  induction r as [s|p|r1 IH1 r2 IH2|r1 IH1 r2 IH2|r1 IH1|p|r1 IH1];
    simpl; intros Hgf inp cap k x H; try done.
  - destruct (strip_prefix s inp) as [rest|]; [|done]. by exists rest.
  - destruct inp as [|c rest]; [done|]. destruct (p c); [|done].
    by exists rest.
  - apply andb_prop in Hgf as [H1 H2].
    apply (IH1 H1) in H as [rest H]. by apply (IH2 H2) in H.
  - apply andb_prop in Hgf as [H1 H2].
    destruct (rmatch r1 inp cap k) eqn:E.
    + injection H as ->. by apply (IH1 H1) in E.
    + by apply (IH2 H2) in H.
  - destruct (rmatch r1 inp cap k) eqn:E.
    + injection H as ->. by apply (IH1 Hgf) in E.
    + by exists inp.
  - apply match_plus_inv in H as (ds & rest & _ & _ & _ & H). by exists rest.
Qed.

Section InterpreterProperties.
Context `{rt : Runtime}.

(** Group 1 of the containment pattern is one lowercase ASCII letter. *)
Lemma match_here_contains_letter (inp : str) (m : Match) :
  match_here contains_re inp = Some m ->
  exists c, is_az c = true /\ m = mkMatch [c].
Proof.
  unfold match_here, contains_re. revert inp.
  do 6 (intros inp; rewrite rmatch_seq;
        intros [rest H]%rmatch_group_free; [|reflexivity];
        revert rest H; clear inp).
  intros inp. rewrite rmatch_seq, rmatch_group. intros H.
  assert (exists c rest, inp = c :: rest /\ is_az c = true) as
    (c & rest & -> & Hc).
  { destruct inp as [|c rest]; [done|]. simpl in H.
    destruct (is_az c) eqn:Hc; [|done]. by exists c, rest. }
  rewrite rmatch_class_accept in H by done.
  apply rmatch_group_free in H as [rest' H]; [|reflexivity].
  change (c :: rest) with ([c] ++ rest) in H. rewrite take_consumed in H.
  exists c. split; [done|]. simpl in H. congruence.
Qed.

Lemma re_search_contains_letter (q : str) (m : Match) :
  re_search contains_re q = Some m ->
  exists c, is_az c = true /\ m = mkMatch [c].
Proof.
  intros (pre & inp & _ & H)%re_search_Some_inv.
  by apply match_here_contains_letter in H.
Qed.

(** X11. A dict the interpreter returns is never empty and never has
    [min_length] above [max_length]; its [is_palindrome], when present, is
    [True]; its [word_count], when present, is 1, 2 or 3; its
    [contains_character], when present, is one lowercase ASCII letter (so
    the truth test of the filter engine never skips it). *)
Theorem interpreted_filters_shape :
  forall (query : str) (filters : Filters.t),
    parse_natural_language_query query = Return filters ->
    filters <> Filters.empty /\
    (forall mn mx, Filters.min_length filters = Some mn ->
                   Filters.max_length filters = Some mx -> (mn <= mx)%Z) /\
    (forall b, Filters.is_palindrome filters = Some b -> b = true) /\
    (forall n, Filters.word_count filters = Some n ->
               n = 1%Z \/ n = 2%Z \/ n = 3%Z) /\
    (forall s, Filters.contains_character filters = Some s ->
               exists c, is_az c = true /\ s = [c]).
Proof.
  intros query filters Hparse.
  destruct (parse_cases query)
    as [[_ Hp]|[(_ & _ & Hp)|(Hnc & Hne & Hp)]];
    rewrite Hp in Hparse; try done.
  injection Hparse as <-. split; [done|]. split.
  { intros mn mx Hmn Hmx. destruct (Z.le_gt_cases mn mx); [done|].
    destruct Hnc. exists mn, mx. split_and!; [done..|lia]. }
  rewrite build_filters_fields. simpl. split_and!.
  - intros b. destruct (str_in _ _); by intros [= <-].
  - intros n.
    destruct (_ || _); [intros [= <-]; tauto|].
    destruct (str_in (py "two word") _); [intros [= <-]; tauto|].
    destruct (str_in (py "three word") _); [intros [= <-]; tauto|done].
  - intros s. destruct (str_in (py "first vowel") _).
    + intros [= <-]. by exists 97%N.
    + destruct (re_search contains_re _) as [m|] eqn:E; [|done].
      intros [= <-]. apply re_search_contains_letter in E as (c & Hc & ->).
      by exists c.
Qed.

(** X12. The keyword rules. [is_palindrome] is set (to [True]) exactly when
    "palindrom" occurs in the lower-cased phrase. [word_count] is 1 when
    "single word" or "one word" occurs, whatever else does; otherwise 2
    when "two word" occurs; otherwise 3 when "three word" occurs; otherwise
    it is not set. *)
Theorem keyword_rules_precedence :
  forall (phrase : str),
    let q := str_lower phrase in
    let filters := build_filters q in
    (Filters.is_palindrome filters = Some true <-> occurs (py "palindrom") q) /\
    (Filters.is_palindrome filters = None <-> ~ occurs (py "palindrom") q) /\
    (occurs (py "single word") q \/ occurs (py "one word") q ->
     Filters.word_count filters = Some 1%Z) /\
    (~ occurs (py "single word") q -> ~ occurs (py "one word") q ->
     occurs (py "two word") q ->
     Filters.word_count filters = Some 2%Z) /\
    (~ occurs (py "single word") q -> ~ occurs (py "one word") q ->
     ~ occurs (py "two word") q -> occurs (py "three word") q ->
     Filters.word_count filters = Some 3%Z) /\
    (~ occurs (py "single word") q -> ~ occurs (py "one word") q ->
     ~ occurs (py "two word") q -> ~ occurs (py "three word") q ->
     Filters.word_count filters = None).
Proof.
  intros phrase q filters. subst filters. rewrite build_filters_fields.
  simpl. unfold occurs. rewrite <-!str_in_spec.
  destruct (str_in (py "palindrom") q), (str_in (py "single word") q),
    (str_in (py "one word") q), (str_in (py "two word") q),
    (str_in (py "three word") q); simpl; split_and!;
    try done; try (split; done); try (intros [?|?]; done);
    try (intros; exfalso; auto; done).
Qed.
End InterpreterProperties.

Section InterpreterProperties2.
Context `{rt : Runtime}.

(** X13. The inclusive bounds. When the leftmost "at least N character" of
    the lower-cased phrase carries the number N and the "exactly" rule does
    not apply, the rules leave [min_length = N], also over what "longer
    than" wrote; when the leftmost "at most N character" carries N and
    "exactly" does not apply, they leave [max_length = N], also over what
    "shorter than" wrote. Without the word "character" after the number
    neither rule applies. *)
Theorem at_least_at_most_inclusive_bounds :
  (forall phrase pre ds post : str,
     str_lower phrase =
       pre ++ py "at least " ++ ds ++ py " character" ++ post ->
     ds <> [] -> forallb is_digit ds = true ->
     (forall pre' ds' post',
        str_lower phrase =
          pre' ++ py "at least " ++ ds' ++ py " character" ++ post' ->
        ds' <> [] -> forallb is_digit ds' = true ->
        length pre <= length pre') ->
     re_search exactly_re (str_lower phrase) = None ->
     Filters.min_length (build_filters (str_lower phrase)) = Some (int ds)) /\
  (forall phrase pre ds post : str,
     str_lower phrase =
       pre ++ py "at most " ++ ds ++ py " character" ++ post ->
     ds <> [] -> forallb is_digit ds = true ->
     (forall pre' ds' post',
        str_lower phrase =
          pre' ++ py "at most " ++ ds' ++ py " character" ++ post' ->
        ds' <> [] -> forallb is_digit ds' = true ->
        length pre <= length pre') ->
     re_search exactly_re (str_lower phrase) = None ->
     Filters.max_length (build_filters (str_lower phrase)) = Some (int ds)) /\
  (forall q : str,
     (forall pre post, q <> pre ++ py " character" ++ post) ->
     re_search at_least_re q = None /\ re_search at_most_re q = None /\
     re_search exactly_re q = None).
Proof.
  split_and!.
  - intros phrase pre ds post Hq Hne Hds Hfirst Hexactly.
    pose proof (search_counted (py "at least ") _ pre ds post
                  Hq Hne Hds Hfirst) as Hsearch.
    fold at_least_re in Hsearch.
    rewrite build_filters_fields. simpl. by rewrite Hexactly, Hsearch.
  - intros phrase pre ds post Hq Hne Hds Hfirst Hexactly.
    pose proof (search_counted (py "at most ") _ pre ds post
                  Hq Hne Hds Hfirst) as Hsearch.
    fold at_most_re in Hsearch.
    rewrite build_filters_fields. simpl. by rewrite Hexactly, Hsearch.
  - intros q Hno. unfold at_least_re, at_most_re, exactly_re.
    split_and!; apply search_counted_None; intros pre ds post _ _ Hq.
    + apply (Hno (pre ++ py "at least " ++ ds) post).
      by rewrite Hq, <-!app_assoc.
    + apply (Hno (pre ++ py "at most " ++ ds) post).
      by rewrite Hq, <-!app_assoc.
    + apply (Hno (pre ++ py "exactly " ++ ds) post).
      by rewrite Hq, <-!app_assoc.
Qed.

(** What follows "contain(s|ing)" when a marker word or a quote announces
    the letter: group 1 is the announced letter. *)
Lemma contains_tail_marked (the marker quote : str) (c : N) (rest : str) :
  the ∈ the_options -> marker ∈ marker_options -> quote ∈ quote_options ->
  marker <> [] \/ quote <> [] -> is_az c = true ->
  rmatch (Lit (py " ") &> Opt (Lit (py "the ")) &>
          Opt (Alt (Lit (py "letter ")) (Lit (py "character "))) &>
          Opt (Class is_quote) &> Group (Class is_az) &>
          Opt (Class is_quote))
    (py " " ++ the ++ marker ++ quote ++ c :: rest) None
    (fun _ cap => Some (mkMatch (default [] cap))) = Some (mkMatch [c]).
Proof.
  intros Hthe Hmarker Hquote Hsome Haz.
  assert (forall (cap : option str) inp,
            rmatch (Group (Class is_az) &> Opt (Class is_quote))
              (c :: inp) cap
              (fun _ cap => Some (mkMatch (default [] cap))) =
            Some (mkMatch [c])) as Hletter.
  { intros cap inp. rewrite rmatch_seq, rmatch_group.
    rewrite rmatch_class_accept by done.
    change (c :: inp) with ([c] ++ inp). rewrite take_consumed.
    simpl. destruct inp as [|c' inp]; [done|]. by destruct (is_quote c'). }
  pose proof (az_not_quote c Haz) as Hnq.
  apply list_elem_of_In in Hthe, Hmarker, Hquote.
  simpl in Hthe, Hmarker, Hquote.
  rewrite rmatch_seq, rmatch_lit_app, rmatch_seq.
  destruct Hthe as [<-|[<-|[]]], Hmarker as [<-|[<-|[<-|[]]]],
    Hquote as [<-|[<-|[<-|[]]]];
    try (destruct Hsome; done); cbn [app];
    (* (?:the )? *)
    first [ apply rmatch_opt_taken; rewrite rmatch_lit_app
          | rewrite rmatch_opt_skipped
              by (apply rmatch_lit_mismatch; reflexivity) ];
    rewrite rmatch_seq;
    (* (?:letter |character )? *)
    first [ apply rmatch_opt_taken, rmatch_alt_first; rewrite rmatch_lit_app
          | apply rmatch_opt_taken;
            rewrite rmatch_alt_second
              by (apply rmatch_lit_mismatch; reflexivity);
            rewrite rmatch_lit_app
          | rewrite rmatch_opt_skipped
              by (rewrite rmatch_alt_second
                    by (apply rmatch_lit_mismatch; reflexivity);
                  apply rmatch_lit_mismatch; reflexivity) ];
    rewrite rmatch_seq; cbn [app];
    (* the quote, the letter *)
    first [ apply rmatch_opt_taken;
            rewrite rmatch_class_accept by reflexivity; apply Hletter
          | rewrite rmatch_opt_skipped
              by (by apply rmatch_class_reject); apply Hletter ].
Qed.

(** X14. The announced letter. At the first place of the lower-cased phrase
    where "contain", "contains" or "containing" is followed by a space,
    when what follows is an optional "the ", an optional "letter " or
    "character ", an optional quote and a lowercase ASCII letter, with the
    marker word or the quote present, and the phrase has no "first vowel",
    the rules set [contains_character] to that letter. *)
Theorem containment_reads_announced_letter :
  forall (phrase pre suf the marker quote : str) (c : N) (rest : str),
    str_lower phrase =
      pre ++ py "contain" ++ suf ++ py " " ++
      the ++ marker ++ quote ++ c :: rest ->
    suf ∈ contain_suffixes ->
    the ∈ the_options -> marker ∈ marker_options -> quote ∈ quote_options ->
    marker <> [] \/ quote <> [] ->
    is_az c = true ->
    (forall pre' suf' post',
       str_lower phrase = pre' ++ py "contain" ++ suf' ++ py " " ++ post' ->
       suf' ∈ contain_suffixes -> length pre <= length pre') ->
    str_in (py "first vowel") (str_lower phrase) = false ->
    Filters.contains_character (build_filters (str_lower phrase)) = Some [c].
Proof.
  intros phrase pre suf the marker quote c rest Hq Hsuf Hthe Hmarker Hquote
    Hsome Haz Hfirst Hvowel.
  pose proof (contains_tail_marked the marker quote c rest
                Hthe Hmarker Hquote Hsome Haz) as Htail.
  assert (match_here contains_re
            (py "contain" ++ suf ++ py " " ++
             the ++ marker ++ quote ++ c :: rest) = Some (mkMatch [c]))
    as Hhere.
  { unfold match_here, contains_re.
    rewrite rmatch_seq, rmatch_lit_app, rmatch_seq.
    apply list_elem_of_In in Hsuf. simpl in Hsuf.
    destruct Hsuf as [<-|[<-|[<-|[]]]].
    - rewrite rmatch_opt_skipped; [done|].
      rewrite rmatch_alt_second; by apply rmatch_lit_mismatch.
    - apply rmatch_opt_taken, rmatch_alt_first. by rewrite rmatch_lit_app.
    - apply rmatch_opt_taken.
      rewrite rmatch_alt_second by by apply rmatch_lit_mismatch.
      by rewrite rmatch_lit_app. }
  assert (re_search contains_re (str_lower phrase) = Some (mkMatch [c]))
    as Hsearch.
  { rewrite Hq. apply re_search_first; [done|].
    intros pre' inp' m' Heq
      (suf' & post' & -> & Hsuf')%match_here_contains_inv.
    apply (Hfirst pre' suf' post'); [|done]. by rewrite Hq. }
  rewrite build_filters_fields. simpl. by rewrite Hvowel, Hsearch.
Qed.
End InterpreterProperties2.

(** ** More on the property computer *)

Lemma remove_dups_length_le {X} `{EqDecision X} (l : list X) :
  length (remove_dups l) <= length l.
Proof.
  induction l as [|x l IH]; simpl; [done|].
  destruct (decide_rel _ x l); simpl; lia.
Qed.

Lemma remove_dups_length_eq {X} `{EqDecision X} (l : list X) :
  length (remove_dups l) = length l <-> NoDup l.
Proof.
  induction l as [|x l IH]; simpl.
  - split; [constructor|done].
  - pose proof (remove_dups_length_le l).
    rewrite NoDup_cons. destruct (decide_rel _ x l) as [Hin|Hnin]; simpl.
    + split; [lia|]. by intros [? _].
    + rewrite <-IH. split; [intros [=]; done|intros [_ ->]; done].
Qed.

Section PropertyComputer.
Context `{rt : Runtime}.

Lemma size_set_of (s : str) : size (set_of s) = length (remove_dups s).
Proof.
  unfold set_of.
  rewrite <-(size_list_to_set (C:=gset N) (remove_dups s))
    by apply NoDup_remove_dups.
  f_equal. apply set_eq. intros c.
  by rewrite !elem_of_list_to_set, elem_of_remove_dups.
Qed.

Lemma Counter_dom (s : str) : dom (Counter s) = set_of s.
Proof.
  apply set_eq. intros c. unfold set_of, Counter.
  rewrite elem_of_dom, elem_of_list_to_set, count_fold_lookup, lookup_empty.
  case_decide; split; done.
Qed.

(** X15. [unique_characters] is the number of distinct characters of the
    string, which is the number of entries of the frequency map. It lies
    between 0 and [length], is 0 only for the empty string, and equals
    [length] exactly when no character occurs twice. *)
Theorem unique_characters_counts_distinct :
  forall s : str,
    let p := analyze_string s in
    StringProperties.unique_characters p =
      Z.of_nat (size (StringProperties.character_frequency_map p)) /\
    StringProperties.unique_characters p = len (remove_dups s) /\
    (0 <= StringProperties.unique_characters p <=
       StringProperties.length p)%Z /\
    (StringProperties.unique_characters p = 0%Z <-> s = []) /\
    (StringProperties.unique_characters p = StringProperties.length p <->
     NoDup s).
Proof.
  intros s p. subst p. simpl. unfold len.
  pose proof (remove_dups_length_le s) as Hle.
  rewrite <-(size_dom (D := gset N) (Counter s)), Counter_dom, size_set_of.
  split_and!; try done; try lia.
  - split.
    + intros H. destruct s as [|c s]; [done|]. exfalso.
      assert (c ∈ remove_dups (c :: s)) as Hin
        by (apply elem_of_remove_dups; left).
      destruct (remove_dups (c :: s)); [by apply elem_of_nil in Hin|].
      simpl in H. lia.
    + by intros ->.
  - rewrite <-remove_dups_length_eq. lia.
Qed.

Lemma forallb_rev {X} (f : X -> bool) (l : list X) :
  forallb f (rev l) = forallb f l.
Proof.
  induction l as [|x l IH]; simpl; [done|].
  rewrite forallb_app, IH. simpl. rewrite andb_true_r. apply andb_comm.
Qed.

Lemma rev_cons_word (c0 : N) (cur : str) :
  rev (c0 :: cur) <> [] /\
  (forallb nonspace (c0 :: cur) = true ->
   forallb nonspace (rev (c0 :: cur)) = true).
Proof.
  split.
  - intros H. apply (f_equal length) in H.
    rewrite length_rev in H. simpl in H. lia.
  - by rewrite forallb_rev.
Qed.

Lemma split_from_spec (cur s : str) :
  forallb nonspace cur = true ->
  Forall (fun w => w <> [] /\ forallb nonspace w = true) (split_from cur s) /\
  concat (split_from cur s) = rev cur ++ List.filter nonspace s.
Proof.
  revert cur. induction s as [|c s IH]; intros cur Hcur.
  - cbn [split_from List.filter]. destruct cur as [|c0 cur].
    + by split.
    + destruct (rev_cons_word c0 cur) as [Hne Hall].
      split; [by repeat constructor; auto|].
      cbn [concat]. by rewrite !app_nil_r.
  - cbn [split_from List.filter].
    assert (nonspace c = negb (isspace c)) as Hns by done.
    destruct (isspace c) eqn:Hc; cbn [negb] in Hns; rewrite Hns.
    + destruct (IH [] eq_refl) as [Hall Hcat]. cbn [rev app] in Hcat.
      destruct cur as [|c0 cur]; [done|].
      destruct (rev_cons_word c0 cur) as [Hne Hw].
      split; [constructor; auto|].
      cbn [concat]. by rewrite Hcat.
    + destruct (IH (c :: cur)) as [Hall Hcat].
      { cbn [forallb]. by rewrite Hns. }
      split; [done|]. rewrite Hcat. cbn [rev]. by rewrite <-app_assoc.
Qed.

Lemma split_from_nil (cur s : str) :
  split_from cur s = [] <-> cur = [] /\ forallb isspace s = true.
Proof.
  revert cur. induction s as [|c s IH]; intros cur; simpl.
  - destruct cur; split; try done. by intros [? _].
  - destruct (isspace c); simpl.
    + destruct cur; [rewrite IH; tauto|]. split; [done|by intros [? _]].
    + rewrite IH. split; [by intros [? _]|by intros [_ ?]].
Qed.

Lemma split_from_word (cur s : str) :
  forallb nonspace s = true ->
  split_from cur s = match rev cur ++ s with [] => [] | w => [w] end.
Proof.
  revert cur. induction s as [|c s IH]; intros cur; simpl.
  - intros _. rewrite app_nil_r. destruct cur as [|c0 cur]; [done|].
    simpl. by destruct (rev cur ++ [c0]) eqn:E; [destruct (rev cur)|].
  - unfold nonspace at 1. destruct (isspace c); simpl; [done|].
    intros Hs. rewrite IH by done. simpl. by rewrite <-app_assoc.
Qed.

Lemma split_from_app (cur a b : str) (sp : N) :
  isspace sp = true ->
  split_from cur (a ++ sp :: b) = split_from cur a ++ split_from [] b.
Proof.
  intros Hsp. revert cur. induction a as [|c a IH]; intros cur; simpl.
  - rewrite Hsp. by destruct cur.
  - destruct (isspace c); [|apply IH].
    destruct cur; simpl; by rewrite IH.
Qed.

Lemma concat_length_ge {X} (ws : list (list X)) :
  Forall (fun w => w <> []) ws -> length ws <= length (concat ws).
Proof.
  induction 1 as [|w ws Hw _ IH]; simpl; [done|].
  rewrite length_app. destruct w; [done|]. simpl. lia.
Qed.

(** X16. [word_count] is the number of words [value.split()] gives. The
    words are non-empty and free of white space, and read one after the
    other they are the non-space characters of the string in order. The
    count is 0 exactly when the string is empty or all white space, never
    exceeds [length], is 1 for a non-empty string without white space, and
    the words of two texts joined by a white-space character are the words
    of the first followed by the words of the second. *)
Theorem word_count_splits_on_whitespace :
  forall s : str,
    let p := analyze_string s in
    StringProperties.word_count p = len (split s) /\
    Forall (fun w => w <> [] /\ forallb nonspace w = true) (split s) /\
    concat (split s) = List.filter nonspace s /\
    (StringProperties.word_count p = 0%Z <-> forallb isspace s = true) /\
    (0 <= StringProperties.word_count p <= StringProperties.length p)%Z /\
    (forallb nonspace s = true -> s <> [] -> split s = [s]) /\
    (forall (t : str) (sp : N),
       isspace sp = true -> split (s ++ sp :: t) = split s ++ split t).
Proof.
  intros s p. subst p. simpl. unfold split.
  destruct (split_from_spec [] s eq_refl) as [Hall Hcat]. simpl in Hcat.
  split_and!; try done.
  - split.
    + intros H. destruct (split_from [] s) eqn:E.
      * by apply split_from_nil in E as [_ ?].
      * unfold len in H. simpl in H. lia.
    + intros H. by rewrite (proj2 (split_from_nil [] s)).
  - unfold len. lia.
  - unfold len. apply Nat2Z.inj_le.
    etransitivity; [apply concat_length_ge|].
    + eapply Forall_impl; [done|]. by intros w [? _].
    + rewrite Hcat. apply (sublist_length _ _ (filter_sublist nonspace s)).
  - intros Hs Hne. rewrite split_from_word by done. simpl.
    by destruct s.
  - intros t sp Hsp. by apply split_from_app.
Qed.

(** Case analysis on every comparison of code points in sight. *)
Ltac by_code_point_cases :=
  repeat match goal with
         | |- context [(?a <=? ?b)%N] => destruct (N.leb_spec a b)
         | |- context [(?a <? ?b)%N] => destruct (N.ltb_spec a b)
         | |- context [(?a =? ?b)%N] => destruct (N.eqb_spec a b)
         | H : context [(?a <? ?b)%N] |- _ => destruct (N.ltb_spec a b)
         end;
  simpl in *; try done; try lia; try (exfalso; lia).

Lemma lower_latin1_idemp (c : N) :
  lower_latin1 (lower_latin1 c) = lower_latin1 c.
Proof. unfold lower_latin1. by_code_point_cases; by_code_point_cases. Qed.

Lemma lower_latin1_latin1 (c : N) :
  is_latin1 c = true -> is_latin1 (lower_latin1 c) = true.
Proof.
  unfold is_latin1, lower_latin1. intros Hc%N.ltb_lt.
  destruct (_ || _) eqn:E; apply N.ltb_lt; [|done].
  assert (c <= 222)%N; [|lia].
  apply orb_prop in E as [[H1 H2]%andb_prop|[[H1 H2]%andb_prop _]%andb_prop];
    apply N.leb_le in H1, H2; lia.
Qed.

Lemma str_lower_latin1 (s : str) :
  forallb is_latin1 s = true -> str_lower s = map lower_latin1 s.
Proof. unfold str_lower. by intros ->. Qed.

Lemma str_lower_idemp (s : str) :
  forallb is_latin1 s = true -> str_lower (str_lower s) = str_lower s.
Proof.
  intros Hs. rewrite (str_lower_latin1 s Hs).
  rewrite str_lower_latin1.
  - rewrite List.map_map. apply List.map_ext. apply lower_latin1_idemp.
  - rewrite forallb_forall in *. intros c (c0 & <- & Hin)%List.in_map_iff.
    apply lower_latin1_latin1. by apply Hs.
Qed.

(** X17. On Latin-1 text the palindrome flag of a string and of its
    reversal agree, a string followed by its reversal, with or without a
    middle character, is a palindrome, and so is a string of at most one
    character. *)
Theorem is_palindrome_latin1 :
  forall (s : str),
    forallb is_latin1 s = true ->
    StringProperties.is_palindrome (analyze_string (rev s)) =
      StringProperties.is_palindrome (analyze_string s) /\
    StringProperties.is_palindrome (analyze_string (s ++ rev s)) = true /\
    (forall c, is_latin1 c = true ->
       StringProperties.is_palindrome (analyze_string (s ++ c :: rev s)) =
         true) /\
    (length s <= 1 ->
     StringProperties.is_palindrome (analyze_string s) = true).
Proof.
  intros s Hs. simpl.
  assert (forallb is_latin1 (rev s) = true) as Hrev by by rewrite forallb_rev.
  split_and!.
  - rewrite !str_lower_latin1 by done. rewrite List.map_rev, rev_involutive.
    apply bool_decide_ext. split; congruence.
  - rewrite str_lower_latin1 by (by rewrite forallb_app, Hs, Hrev).
    apply bool_decide_eq_true.
    by rewrite List.map_app, List.map_rev, rev_app_distr, rev_involutive.
  - intros c Hc.
    rewrite str_lower_latin1
      by (rewrite forallb_app; simpl; by rewrite Hs, Hc, Hrev).
    apply bool_decide_eq_true.
    rewrite List.map_app. simpl. rewrite List.map_rev.
    rewrite rev_app_distr. simpl. rewrite rev_involutive.
    by rewrite <-app_assoc.
  - intros Hlen. rewrite str_lower_latin1 by done.
    apply bool_decide_eq_true.
    by destruct s as [|c [|c' s]]; simpl in *; try lia.
Qed.

(** X18. Interpretation reads the phrase through [lower()] only: two
    phrases with the same lower-casing are interpreted alike, and on
    Latin-1 text a phrase and its lower-casing are. *)
Theorem interpretation_ignores_case :
  forall (phrase : str),
    forallb is_latin1 phrase = true ->
    parse_natural_language_query (str_lower phrase) =
      parse_natural_language_query phrase /\
    (forall phrase',
       str_lower phrase' = str_lower phrase ->
       parse_natural_language_query phrase' =
         parse_natural_language_query phrase).
Proof.
  intros phrase Hp. split.
  - unfold parse_natural_language_query. by rewrite str_lower_idemp.
  - intros phrase' Heq. unfold parse_natural_language_query. by rewrite Heq.
Qed.
End PropertyComputer.

Section InterpretedBounds.
Context `{rt : Runtime}.

Lemma int_from_nonneg (ds : str) (acc : Z) :
  (forall c, c ∈ ds -> (0 <= default 0 (decimal_value c))%Z) ->
  (0 <= acc)%Z ->
  (0 <= foldl (fun acc c => (10 * acc + default 0 (decimal_value c))%Z)
          acc ds)%Z.
Proof.
  revert acc. induction ds as [|d ds IH]; intros acc Hd Hacc; simpl; [done|].
  apply IH.
  - intros c Hc. apply Hd. by right.
  - pose proof (Hd d ltac:(left)). lia.
Qed.

Lemma int_nonneg (ds : str) :
  forallb is_latin1 ds = true -> (0 <= int ds)%Z.
Proof.
  intros Hds. apply int_from_nonneg; [|done].
  intros c Hc. rewrite forallb_forall in Hds.
  apply list_elem_of_In, Hds in Hc. unfold decimal_value. rewrite Hc.
  unfold is_ascii_digit.
  destruct (N.leb_spec 48 c); simpl; [|done].
  destruct (c <=? 57)%N; simpl; [lia|done].
Qed.

(** The digits a numeric pattern captures are characters of the text. *)
Lemma search_number_group (a q : str) (m : Match) :
  re_search (Lit a &> Group (Plus is_digit)) q = Some m ->
  forall c, c ∈ group1 m -> c ∈ q.
Proof.
  intros (pre & inp & -> & H)%re_search_Some_inv.
  apply match_here_run in H as (ds & rest & -> & _ & _ & _ & ->).
  intros c Hc. simpl in Hc. rewrite !elem_of_app. tauto.
Qed.

Lemma search_counted_group (a q : str) (m : Match) :
  re_search (Lit a &> Group (Plus is_digit) &> Lit (py " character") &>
             Opt (Lit (py "s"))) q = Some m ->
  forall c, c ∈ group1 m -> c ∈ q.
Proof.
  intros (pre & inp & -> & H)%re_search_Some_inv.
  apply match_here_run_lit in H as (ds & rest & -> & _ & _ & ->);
    [|done|apply space_not_digit].
  intros c Hc. simpl in Hc. rewrite !elem_of_app. tauto.
Qed.

Lemma latin1_group (q ds : str) :
  forallb is_latin1 q = true -> (forall c, c ∈ ds -> c ∈ q) ->
  forallb is_latin1 ds = true.
Proof.
  rewrite !forallb_forall. intros Hq Hsub c Hc%list_elem_of_In.
  by apply Hq, list_elem_of_In, Hsub.
Qed.

Lemma str_lower_keeps_latin1 (s : str) :
  forallb is_latin1 s = true -> forallb is_latin1 (str_lower s) = true.
Proof.
  intros Hs. unfold str_lower. rewrite Hs.
  rewrite forallb_forall in *. intros c (c0 & <- & Hin)%List.in_map_iff.
  apply lower_latin1_latin1. by apply Hs.
Qed.

(** X19. On a Latin-1 phrase the numbers the rules write are sane: a
    [min_length] is never negative, and a [max_length] is at least -1 (the
    value "shorter than 0" gives). *)
Theorem interpreted_bounds_range :
  forall (phrase : str),
    forallb is_latin1 phrase = true ->
    let filters := build_filters (str_lower phrase) in
    (forall mn, Filters.min_length filters = Some mn -> (0 <= mn)%Z) /\
    (forall mx, Filters.max_length filters = Some mx -> (-1 <= mx)%Z).
Proof.
  intros phrase Hp%str_lower_keeps_latin1.
  set (q := str_lower phrase) in *. cbv zeta.
  rewrite build_filters_fields. simpl.
  assert (forall a m,
            re_search (Lit a &> Group (Plus is_digit)) q = Some m ->
            (0 <= int (group1 m))%Z) as Hnum.
  { intros a m Hm. eapply int_nonneg, latin1_group; [done|].
    by eapply search_number_group. }
  assert (forall a m,
            re_search (Lit a &> Group (Plus is_digit) &>
                       Lit (py " character") &> Opt (Lit (py "s"))) q =
              Some m ->
            (0 <= int (group1 m))%Z) as Hcnt.
  { intros a m Hm. eapply int_nonneg, latin1_group; [done|].
    by eapply search_counted_group. }
  split.
  - intros mn.
    destruct (re_search exactly_re q) as [m|] eqn:E1.
    { intros [= <-]. by apply (Hcnt _ _ E1). }
    destruct (re_search at_least_re q) as [m|] eqn:E2.
    { intros [= <-]. by apply (Hcnt _ _ E2). }
    destruct (re_search longer_re q) as [m|] eqn:E3; [|done].
    intros [= <-]. pose proof (Hnum _ _ E3). lia.
  - intros mx.
    destruct (re_search exactly_re q) as [m|] eqn:E1.
    { intros [= <-]. pose proof (Hcnt _ _ E1). lia. }
    destruct (re_search at_most_re q) as [m|] eqn:E2.
    { intros [= <-]. pose proof (Hcnt _ _ E2). lia. }
    destruct (re_search shorter_re q) as [m|] eqn:E3; [|done].
    intros [= <-]. pose proof (Hnum _ _ E3). lia.
Qed.
End InterpretedBounds.

(** ** The theorems at work on concrete phrases

    The inputs below are Latin-1 text, on which nothing depends on the
    fields of the runtime; they are run with [latin1_runtime]. *)

#[local] Existing Instance latin1_runtime.

(** "banana" matches no rule and is answered with status 400. *)
Lemma interpret_failures_distinct_witness :
  no_rule_matches (str_lower (py "banana")) /\
  filter_by_natural_language [] (py "banana") =
    Raise (HTTPException 400
             (py "Unable to parse natural language query: " ++ unable_msg)).
Proof.
  assert (no_rule_matches (str_lower (py "banana"))) as Hno.
  { unfold no_rule_matches. repeat split; vm_compute; reflexivity. }
  split; [exact Hno|].
  pose proof (proj1 interpret_failures_distinct (py "banana") [])
    as (_ & _ & _ & _ & H400 & _).
  exact (H400 Hno).
Defined.

(** Rule 4 reads "z", rule 5 overwrites it. *)
Lemma first_vowel_overrides_containment_witness :
  re_search contains_re
    (str_lower (py "Strings containing Z and the First Vowel")) =
    Some (mkMatch (py "z")) /\
  Filters.contains_character
    (build_filters (str_lower (py "Strings containing Z and the First Vowel")))
    = Some (py "a").
Proof.
  split; [vm_compute; reflexivity|].
  refine (proj1 (proj1 first_vowel_overrides_containment
                   (py "Strings containing Z and the First Vowel") _)).
  right. vm_compute. reflexivity.
Defined.

(** "longer than 20" writes [min_length] 21 first; "exactly 12 characters"
    has the last word. *)
Lemma exactly_sets_both_bounds_witness :
  let phrase := py "Exactly 12 Characters, longer than 20" in
  Filters.min_length (build_filters (str_lower phrase)) = Some 12%Z /\
  Filters.max_length (build_filters (str_lower phrase)) = Some 12%Z /\
  parse_natural_language_query phrase =
    Return (build_filters (str_lower phrase)).
Proof.
  refine (proj1 exactly_sets_both_bounds
            (py "Exactly 12 Characters, longer than 20")
            [] (py "12") (py "s, longer than 20") _ _ _ _).
  - vm_compute. reflexivity.
  - discriminate.
  - vm_compute. reflexivity.
  - intros. simpl. lia.
Defined.

Lemma longer_shorter_strict_bounds_witness :
  Filters.min_length
    (build_filters (str_lower (py "Longer than 10 characters"))) = Some 11%Z /\
  Filters.max_length
    (build_filters (str_lower (py "Shorter than 0 characters"))) = Some (-1)%Z.
Proof.
  split.
  - refine (proj1 (proj1 longer_shorter_strict_bounds
                     (py "Longer than 10 characters") [] (py "10")
                     (py " characters") _ _ _ _ _ _ _)).
    + vm_compute. reflexivity.
    + discriminate.
    + vm_compute. reflexivity.
    + vm_compute. reflexivity.
    + intros. simpl. lia.
    + vm_compute. reflexivity.
    + vm_compute. reflexivity.
  - refine (proj1 (proj1 (proj2 longer_shorter_strict_bounds)
                     (py "Shorter than 0 characters") [] (py "0")
                     (py " characters") _ _ _ _ _ _ _)).
    + vm_compute. reflexivity.
    + discriminate.
    + vm_compute. reflexivity.
    + vm_compute. reflexivity.
    + intros. simpl. lia.
    + vm_compute. reflexivity.
    + vm_compute. reflexivity.
Defined.

Lemma containment_takes_first_letter_witness :
  Filters.contains_character
    (build_filters (str_lower (py "Containing multiple words"))) =
    Some (py "m").
Proof.
  refine (proj1 (proj1 containment_takes_first_letter
                   (py "Containing multiple words") [] (py "ing") 109%N
                   (py "ultiple words") _ _ _ _ _ _ _ _)).
  - vm_compute. reflexivity.
  - apply list_elem_of_In. simpl. tauto.
  - vm_compute. reflexivity.
  - intros. simpl. lia.
  - vm_compute. reflexivity.
  - vm_compute. reflexivity.
  - vm_compute. reflexivity.
  - vm_compute. reflexivity.
Defined.

(** A first creation, then the same value again. *)
Lemma create_string_duplicate_or_insert_witness :
  let record :=
    StringData.mk (sha256_hexdigest (py "abc")) (py "abc")
      (analyze_string (py "abc")) (py "2025-01-01T00:00:00" ++ py "Z") in
  create_string (py "2025-01-01T00:00:00") (py "abc") [] =
    ([(sha256_hexdigest (py "abc"), record)], Return record) /\
  create_string (py "2025-01-02T00:00:00") (py "abc")
    [(sha256_hexdigest (py "abc"), record)] =
    ([(sha256_hexdigest (py "abc"), record)], Raise duplicate_error).
Proof.
  pose proof (proj2 (create_string_duplicate_or_insert
                       (py "2025-01-01T00:00:00") (py "abc") []) eq_refl)
    as (Hnew & _ & _ & _ & Hagain).
  split; [exact Hnew|exact (Hagain (py "2025-01-02T00:00:00"))].
Defined.

(** ** Where the claims as stated fail *)

(** C3 as stated fails: the phrase contains "exactly 7 characters", yet the
    pattern stops at the first occurrence and both bounds are 5. *)
Lemma exactly_later_occurrence_ignored :
  let phrase := py "exactly 5 characters or exactly 7 characters" in
  phrase = py "exactly 5 characters or " ++
           py "exactly " ++ py "7" ++ py " character" ++ py "s" /\
  forallb is_digit (py "7") = true /\
  int (py "7") = 7%Z /\
  parse_natural_language_query phrase =
    Return (Filters.mk None (Some 5%Z) (Some 5%Z) None None) /\
  Filters.min_length (build_filters (str_lower phrase)) <>
    Some (int (py "7")) /\
  Filters.max_length (build_filters (str_lower phrase)) <>
    Some (int (py "7")).
Proof. vm_compute. repeat split; discriminate. Qed.

(** C4 as stated fails: the phrase contains "longer than 9", no later rule
    writes [min_length], yet [min_length] is 6, from "longer than 5". *)
Lemma longer_later_occurrence_ignored :
  let phrase := py "longer than 5 or longer than 9" in
  phrase = py "longer than 5 or " ++ py "longer than " ++ py "9" ++ [] /\
  forallb is_digit (py "9") = true /\
  int (py "9") = 9%Z /\
  re_search at_least_re (str_lower phrase) = None /\
  re_search exactly_re (str_lower phrase) = None /\
  parse_natural_language_query phrase =
    Return (Filters.mk None (Some 6%Z) None None None) /\
  Filters.min_length (build_filters (str_lower phrase)) <>
    Some (int (py "9") + 1)%Z.
Proof. vm_compute. repeat split; discriminate. Qed.

(** C10 as stated fails: in "strings containing the letter z" the word after
    "containing " is "the", which begins with the lowercase letter "t", yet
    [contains_character] is "z". *)
Lemma containment_skips_the_letter :
  let phrase := py "strings containing the letter z" in
  str_lower phrase =
    py "strings " ++ py "contain" ++ py "ing" ++ py " " ++ py "the letter z" /\
  starts_with_class is_az (py "the letter z") = true /\
  parse_natural_language_query phrase =
    Return (Filters.mk None None None None (Some (py "z"))) /\
  Filters.contains_character (build_filters (str_lower phrase)) <>
    Some (py "t").
Proof. vm_compute. repeat split; discriminate. Qed.

(** ** The further properties at work *)

(** A stored "abc" is deleted, after which it is not found. *)
Lemma delete_string_removes_one_binding_witness :
  let record :=
    StringData.mk (sha256_hexdigest (py "abc")) (py "abc")
      (analyze_string (py "abc")) (py "2025-01-01T00:00:00Z") in
  let string_store := [(sha256_hexdigest (py "abc"), record)] in
  NoDup (dict_keys string_store) /\
  delete_string (py "abc") string_store = ([], Return ()) /\
  get_string (py "abc") [] = Raise not_found_error.
Proof.
  intros record string_store.
  assert (NoDup (dict_keys string_store)) as Hnd by apply NoDup_singleton.
  split; [exact Hnd|].
  pose proof (proj2 (delete_string_removes_one_binding (py "abc")
                       string_store Hnd) eq_refl)
    as (Hdel & _ & _ & _ & _ & Hget & _).
  split; [exact Hdel|exact Hget].
Defined.

Lemma create_delete_round_trip_witness :
  delete_string (py "abc")
    (fst (create_string (py "2025-01-01T00:00:00") (py "abc") [])) =
  ([], Return ()).
Proof.
  exact (proj1 (create_delete_round_trip (py "2025-01-01T00:00:00")
                  (py "abc") []) eq_refl).
Defined.

Lemma creations_are_listed_in_order_witness :
  list_strings_with_filters
    (fst (create_string (py "t2") (py "radar")
            (fst (create_string (py "t1") (py "hello world") []))))
    None None None None None =
  Return (FilteredResponse.mk
            [StringData.mk (sha256_hexdigest (py "hello world"))
               (py "hello world") (analyze_string (py "hello world"))
               (py "t1" ++ py "Z");
             StringData.mk (sha256_hexdigest (py "radar")) (py "radar")
               (analyze_string (py "radar")) (py "t2" ++ py "Z")]
            2 Filters.empty).
Proof.
  refine (proj2 (proj2 (creations_are_listed_in_order
                          (py "t1") (py "hello world") (py "t2") (py "radar")
                          [] _ _ _))).
  - reflexivity.
  - reflexivity.
  - vm_compute. discriminate.
Defined.

Lemma natural_language_agrees_with_structured_witness :
  parse_natural_language_query (py "single word palindromic strings") =
    Return (Filters.mk (Some true) None None (Some 1%Z) None) /\
  filter_by_natural_language [] (py "single word palindromic strings") =
    Return (NaturalLanguageResponse.mk [] 0
              (InterpretedQuery.mk (py "single word palindromic strings")
                 (Filters.mk (Some true) None None (Some 1%Z) None))).
Proof.
  assert (parse_natural_language_query
            (py "single word palindromic strings") =
          Return (Filters.mk (Some true) None None (Some 1%Z) None)) as Hp
    by (vm_compute; reflexivity).
  split; [exact Hp|].
  exact (proj1 (natural_language_agrees_with_structured [] _ _ Hp)).
Defined.

Lemma interpreted_filters_shape_witness :
  parse_natural_language_query (py "strings containing the letter z") =
    Return (Filters.mk None None None None (Some (py "z"))) /\
  exists c, is_az c = true /\ py "z" = [c].
Proof.
  assert (parse_natural_language_query
            (py "strings containing the letter z") =
          Return (Filters.mk None None None None (Some (py "z")))) as Hp
    by (vm_compute; reflexivity).
  split; [exact Hp|].
  exact (proj2 (proj2 (proj2 (proj2
           (interpreted_filters_shape _ _ Hp)))) (py "z") eq_refl).
Defined.

(** "at least 3 characters" has the last word over "longer than 20". *)
Lemma at_least_at_most_inclusive_bounds_witness :
  Filters.min_length
    (build_filters
       (str_lower (py "At least 3 characters and longer than 20"))) =
    Some 3%Z.
Proof.
  refine (proj1 at_least_at_most_inclusive_bounds
            (py "At least 3 characters and longer than 20")
            [] (py "3") (py "s and longer than 20") _ _ _ _ _).
  - vm_compute. reflexivity.
  - discriminate.
  - vm_compute. reflexivity.
  - intros. simpl. lia.
  - vm_compute. reflexivity.
Defined.

Lemma containment_reads_announced_letter_witness :
  Filters.contains_character
    (build_filters (str_lower (py "Containing the letter z"))) =
    Some (py "z").
Proof.
  refine (containment_reads_announced_letter
            (py "Containing the letter z") [] (py "ing") (py "the ")
            (py "letter ") [] 122%N [] _ _ _ _ _ _ _ _ _).
  - vm_compute. reflexivity.
  - apply list_elem_of_In. simpl. tauto.
  - apply list_elem_of_In. simpl. tauto.
  - apply list_elem_of_In. simpl. tauto.
  - apply list_elem_of_In. simpl. tauto.
  - left. discriminate.
  - vm_compute. reflexivity.
  - intros. simpl. lia.
  - vm_compute. reflexivity.
Defined.

Lemma is_palindrome_latin1_witness :
  StringProperties.is_palindrome (analyze_string (py "Ab" ++ rev (py "Ab"))) =
    true.
Proof.
  refine (proj1 (proj2 (is_palindrome_latin1 (py "Ab") _))).
  vm_compute. reflexivity.
Defined.

Lemma interpretation_ignores_case_witness :
  parse_natural_language_query (str_lower (py "PALINDROMIC Strings")) =
  parse_natural_language_query (py "PALINDROMIC Strings").
Proof.
  refine (proj1 (interpretation_ignores_case (py "PALINDROMIC Strings") _)).
  vm_compute. reflexivity.
Defined.

(** "shorter than 0" gives the lowest [max_length], -1. *)
Lemma interpreted_bounds_range_witness :
  Filters.max_length (build_filters (str_lower (py "shorter than 0"))) =
    Some (-1)%Z /\
  (-1 <= -1)%Z.
Proof.
  assert (Filters.max_length
            (build_filters (str_lower (py "shorter than 0"))) = Some (-1)%Z)
    as Hmax by (vm_compute; reflexivity).
  split; [exact Hmax|].
  refine (proj2 (interpreted_bounds_range (py "shorter than 0") _) _ Hmax).
  vm_compute. reflexivity.
Defined.
